(** * XEP-0333 chat markers of converse.js: the marker plugin's utilities

    A shallow embedding of [getMessageIdToMark], [addChatMarker],
    [sendChatMarker], [sendMarkerForLastMessage], [sendMarkerForMessage],
    [sendMarkerForMUCMessage], [handleUnreadMessage], [handleChatMarker]
    and [onUnreadsCleared], followed by the properties the specification
    states about them.

    Conventions.
    - A model or stanza attribute that may be missing is an [option];
      [None] is JavaScript's [undefined].
    - A JavaScript object used as a dictionary is a [gmap string _].
    - A collection (Skeletor [Collection]) is a [list] in model order.
    - Objects the code mutates (the chat with its marker collection, a
      message, the connection's outbox) are passed in and handed back.
    - A function that can throw hands back the mutated objects as they
      are when it stops, and a [result]: the value it returns, or the
      error it throws. *)

From Stdlib Require Import ZArith Ascii String.
From stdpp Require Import gmap strings list fin_maps.

Local Open Scope Z_scope.

(** ** Errors *)

Inductive result (A : Type) : Type :=
| Ok (a : A)
| Throw (e : string).
Arguments Ok {A} a.
Arguments Throw {A} e.

(** A caller that drops or replaces the value of the call it ends with:
    an error still propagates. *)
#[global] Instance result_fmap : FMap result := λ A B f r,
  match r with
  | Ok a => Ok (f a)
  | Throw e => Throw e
  end.

Definition TypeError (msg : string) : string := "TypeError: " +:+ msg.

(** ** JavaScript truthiness of the values the plugin tests *)

Definition truthy_str (o : option string) : bool :=
  match o with
  | Some s => negb (String.eqb s "")
  | None => false
  end.

(** [a || b] where [a] may be undefined and [b] is a string. *)
Definition js_or (a : option string) (b : string) : string :=
  match a with
  | Some s => if String.eqb s "" then b else s
  | None => b
  end.

(** A value interpolated into a template literal. *)
Definition interpolate (o : option string) : string :=
  match o with
  | Some s => s
  | None => "null"
  end.

(** ** Strophe

    [Strophe.getBareJidFromJid (jid)] is [jid ? jid.split("/")[0] : null]:
    the part of the address before the first slash, [null] for an empty
    address. *)

Fixpoint before_slash (s : string) : string :=
  match s with
  | EmptyString => EmptyString
  | String c r => if Ascii.eqb c "/"%char then EmptyString else String c (before_slash r)
  end.

Definition getBareJidFromJid (jid : string) : option string :=
  if String.eqb jid "" then None else Some (before_slash jid).

(** ** Messages

    The attributes of a [_converse.Message] the plugin reads.  The
    attributes with a computed name ([stanza_id <jid>], [marked_<type>])
    live in dictionaries keyed by the whole attribute name. *)

Record Message := mkMessage {
  msg_type : string;                       (* 'type' *)
  msg_from : string;                       (* 'from' *)
  msgid : string;                          (* 'msgid', the client-generated id *)
  msg_marker : option string;              (* 'marker' *)
  msg_body : option string;                (* 'body' *)
  is_markable : bool;                      (* 'is_markable' *)
  msg_time : Z;                            (* 'time', milliseconds since the epoch *)
  is_new : bool;                           (* what u.isNewMessage answers *)
  msg_ids : gmap string string;            (* string attributes by name: 'stanza_id <jid>' *)
  msg_lists : gmap string (list string)    (* array attributes by name: 'marked_<type>' *)
}.

(** [msg.save({name: value})] on an array attribute. *)
Definition save_list (name : string) (value : list string) (m : Message) : Message :=
  mkMessage (msg_type m) (msg_from m) (msgid m) (msg_marker m) (msg_body m)
            (is_markable m) (msg_time m) (is_new m) (msg_ids m)
            (<[name := value]> (msg_lists m)).

Definition stanza_id_key (jid : option string) : string :=
  "stanza_id " +:+ interpolate jid.

Definition getMessageIdToMark (message : Message) : string :=
  if String.eqb (msg_type message) "groupchat" then
    let muc_jid := getBareJidFromJid (msg_from message) in
    js_or (msg_ids message !! stanza_id_key muc_jid) (msgid message)
  else msgid message.

(** ** Session context and settings

    [_converse.bare_jid], [_converse.connection.jid] and the two settings
    the plugin reads through [api.settings.get]. *)

Record Env := mkEnv {
  bare_jid : string;
  connection_jid : string;
  muc_chat_markers_limit : Z;
  send_chat_markers : list string
}.

(** [_converse.CHATROOMS_TYPE] *)
Definition CHATROOMS_TYPE : string := "chatroom".

(** Modelled from the spec: the plugin's [./constants.js], which exports
    [MARKER_TYPES], is not among the sources.  The specification describes
    it as the fixed rank table of the closed set of acknowledgment levels,
    received < displayed < acknowledged. *)
Definition MARKER_TYPES : list (string * Z) :=
  [("received", 0); ("displayed", 1); ("acknowledged", 2)].

(** [Object.keys(MARKER_TYPES).includes(type)] *)
Definition is_marker_type (type : string) : bool :=
  existsb (String.eqb type) (map fst MARKER_TYPES).

(** [MARKER_TYPES[type]] *)
Fixpoint table_get (tbl : list (string * Z)) (key : string) : option Z :=
  match tbl with
  | [] => None
  | (k, v) :: rest => if String.eqb key k then Some v else table_get rest key
  end.

(** ** Dates

    A [Date] is its time value, the milliseconds since the epoch.
    [getMilliseconds] is the millisecond field of the time value and
    [setMilliseconds] replaces that field and answers the new time value;
    a field beyond 999 carries into the seconds. *)

Definition getMilliseconds (t : Z) : Z := t mod 1000.

Definition setMilliseconds (t ms : Z) : Z := t - t mod 1000 + ms.

(** ** Marker records and the marker collection *)

Record ChatMarker := mkChatMarker {
  marker_id : string;                  (* 'id' *)
  marked_by : gmap string string;      (* 'marked_by' *)
  marker_time : Z                      (* 'time' *)
}.

Definition set_marked_by (mb : gmap string string) (m : ChatMarker) : ChatMarker :=
  mkChatMarker (marker_id m) mb (marker_time m).

(** [chat.markers.get(id)]: the record with that id and its position. *)
Definition markers_get (id : string) (store : list ChatMarker) : option (nat * ChatMarker) :=
  list_find (λ m, marker_id m = id) store.

(** [chat.markers.findWhere(m => m instanceof ChatMarker && m.get('marked_by')?.[by_jid])]:
    the first record, in model order, whose entry for [by_jid] is truthy. *)
Definition find_marked_by (by_jid : string) (store : list ChatMarker) : option (nat * ChatMarker) :=
  list_find (λ m, truthy_str (marked_by m !! by_jid) = true) store.

(** Modelled from the spec: [ChatMarker.removeMarkerJID] lives in
    [./marker.js], which is not among the sources.  It removes the
    participant's entry from the record's [marked_by]; a record whose
    mapping becomes empty is deleted from the collection. *)
Definition removeMarkerJID (by_jid : string) (i : nat) (m : ChatMarker)
    (store : list ChatMarker) : list ChatMarker :=
  let mb := delete by_jid (marked_by m) in
  if decide (mb = ∅) then delete i store else <[i := set_marked_by mb m]> store.

(** Lines 59-60, [chat.markers.findWhere(predicate)?.removeMarkerJID(by_jid)]. *)
Definition remove_previous (by_jid : string) (store : list ChatMarker) : list ChatMarker :=
  match find_marked_by by_jid store with
  | Some (j, m) => removeMarkerJID by_jid j m store
  | None => store
  end.

(** [chat.markers.add(model)]: a model whose id the collection already
    holds is not added, the held one is answered. *)
Definition markers_add (m : ChatMarker) (store : list ChatMarker) : ChatMarker * list ChatMarker :=
  match markers_get (marker_id m) store with
  | Some (_, held) => (held, store)
  | None => (m, store ++ [m])
  end.

(** ** Chats *)

Record Chat := mkChat {
  chat_type : string;             (* 'type' *)
  chat_jid : string;              (* 'jid' *)
  occupants_length : Z;           (* chat.occupants.length *)
  is_hidden : bool;               (* chat.isHidden() *)
  num_unread : Z;                 (* 'num_unread' *)
  num_unread_general : Z;         (* 'num_unread_general' *)
  has_activity : bool;            (* 'has_activity' *)
  messages : list Message;        (* chat.messages.models *)
  markers : list ChatMarker       (* chat.markers *)
}.

Definition set_markers (store : list ChatMarker) (c : Chat) : Chat :=
  mkChat (chat_type c) (chat_jid c) (occupants_length c) (is_hidden c)
         (num_unread c) (num_unread_general c) (has_activity c) (messages c) store.

Definition set_messages (msgs : list Message) (c : Chat) : Chat :=
  mkChat (chat_type c) (chat_jid c) (occupants_length c) (is_hidden c)
         (num_unread c) (num_unread_general c) (has_activity c) msgs (markers c).

(** ** addChatMarker *)

(** The guard of lines 31-42: a room, a marker of somebody else, and more
    occupants than [muc_chat_markers_limit]. *)
Definition over_limit (env : Env) (chat : Chat) (by_jid : string) : bool :=
  String.eqb (chat_type chat) CHATROOMS_TYPE &&
  (negb (String.eqb by_jid (bare_jid env)) &&
   (muc_chat_markers_limit env <? occupants_length chat)).

(** Lines 44-68: what [addChatMarker] does once past the guard.  [now] is
    the time value of [new Date()]. *)
Definition applyChatMarker (now : Z) (chat : Chat) (message : Message)
    (by_jid type : string) : Chat * result (option ChatMarker) :=
  if negb (is_marker_type type) then
    (chat, Throw (TypeError "Invalid XEP-0333 chat marker type"))
  else
    let marked_message_id := getMessageIdToMark message in
    match markers_get marked_message_id (markers chat) with
    | Some (i, marked) =>
        let marked' := set_marked_by (<[by_jid := type]> (marked_by marked)) marked in
        (set_markers (<[i := marked']> (markers chat)) chat, Ok (Some marked'))
    | None =>
        let store := remove_previous by_jid (markers chat) in
        let marker_data :=
          mkChatMarker marked_message_id {[by_jid := type]}
            (setMilliseconds now (getMilliseconds (msg_time message) + 1)) in
        let '(added, store') := markers_add marker_data store in
        (set_markers store' chat, Ok (Some added))
    end.

(** [type = None] is a call that leaves the parameter out, which takes the
    default ['displayed']. *)
Definition addChatMarker (env : Env) (now : Z) (chat : Chat) (message : Message)
    (by_jid : string) (type : option string) : Chat * result (option ChatMarker) :=
  let type := default "displayed" type in
  if over_limit env chat by_jid then (chat, Ok None)
  else applyChatMarker now chat message by_jid type.

(** ** The connection

    What [api.send] has been handed, oldest first, and what [log.error]
    has been told.  A stanza keeps the attributes [sendChatMarker] chooses;
    its own [id], a fresh [u.getUniqueId()], is left out. *)

Record Stanza := mkStanza {
  st_from : string;               (* 'from' *)
  st_to : option string;          (* 'to' *)
  st_type : string;               (* 'type' *)
  st_marker : string;             (* name of the child element *)
  st_marked_id : string           (* 'id' of the child element *)
}.

Record IO := mkIO {
  outbox : list Stanza;
  error_log : list string
}.

Definition api_send (stanza : Stanza) (io : IO) : IO :=
  mkIO (outbox io ++ [stanza]) (error_log io).

Definition log_error (line : string) (io : IO) : IO :=
  mkIO (outbox io) (error_log io ++ [line]).

Definition sendChatMarker (env : Env) (to_jid : option string) (id type msg_type : string)
    (io : IO) : IO :=
  let stanza :=
    mkStanza (connection_jid env) to_jid
             (if String.eqb msg_type "" then "chat" else msg_type) type id in
  api_send stanza io.

(** [array.includes(type)] on an array of strings. *)
Definition includes (type : string) (array : list string) : bool :=
  existsb (String.eqb type) array.

(** ** sendMarkerForMessage

    The message is mutated by [msg.save]; the function hands back the
    message as it is afterwards. *)
Definition sendMarkerForMessage (env : Env) (msg : option Message) (type : option string)
    (force : bool) (io : IO) : bool * option Message * IO :=
  let type := default "displayed" type in
  match msg with
  | None => (false, msg, io)
  | Some m =>
      if negb (includes type (send_chat_markers env)) then (false, msg, io)
      else if is_markable m || force then
        let from_jid := getBareJidFromJid (msg_from m) in
        let io' := sendChatMarker env from_jid (msgid m) type (msg_type m) io in
        let field_name := "marked_" +:+ type in
        let marked := default [] (msg_lists m !! field_name) in
        (true, Some (save_list "field_name" (marked ++ [bare_jid env]) m), io')
      else (false, msg, io)
  end.

(** ** sendMarkerForMUCMessage *)

(** [chat.markers.get(mid)?.get('marked_by')?.[_converse.bare_jid]] *)
Definition own_mark (env : Env) (chat : Chat) (mid : string) : option string :=
  match markers_get mid (markers chat) with
  | Some (_, marked) => marked_by marked !! bare_jid env
  | None => None
  end.

(** [-1 > MARKER_TYPES[type]]; a comparison with [undefined] is false. *)
Definition minus_one_gt (rank : option Z) : bool :=
  match rank with
  | Some r => r <? -1
  | None => false
  end.

(** The condition of line 146,
    [own_mark ?? -1 > MARKER_TYPES[type]].  The relational operator binds
    tighter than [??], so this is [own_mark ?? (-1 > MARKER_TYPES[type])]:
    the truthiness of the stored level when there is one, and the
    comparison otherwise. *)
Definition already_marked (env : Env) (chat : Chat) (mid type : string) : bool :=
  match own_mark env chat mid with
  | Some level => truthy_str (Some level)
  | None => minus_one_gt (table_get MARKER_TYPES type)
  end.

Definition sendMarkerForMUCMessage (env : Env) (chat : Chat) (msg : option Message)
    (type : option string) (io : IO) : IO * result bool :=
  let type := default "displayed" type in
  if negb (is_marker_type type) then
    (io, Throw (TypeError "Invalid XEP-0333 chat marker type"))
  else
    match msg with
    | None => (io, Ok false)
    | Some m =>
        if negb (includes type (send_chat_markers env)) then (io, Ok false)
        else if is_markable m then
          let mid := getMessageIdToMark m in
          if already_marked env chat mid type then (io, Ok false)
          else
            let key := "stanza_id " +:+ chat_jid chat in
            let id := msg_ids m !! key in
            if negb (truthy_str id) then
              (log_error ("Can't send marker for message without stanza ID: " +:+ key) io,
               Ok false)
            else
              let from_jid := getBareJidFromJid (msg_from m) in
              (sendChatMarker env from_jid (default "" id) type (msg_type m) io, Ok true)
        else (io, Ok false)
    end.

(** ** The callers

    [a && b] as a statement: [b] runs when [a] is truthy, and the value is
    dropped.  A message found in [chat.messages] is the object the
    collection holds, so what [sendMarkerForMessage] saves on it is put
    back at its position. *)

Definition put_message (i : nat) (msg : option Message) (chat : Chat) : Chat :=
  match msg with
  | Some m => set_messages (<[i := m]> (messages chat)) chat
  | None => chat
  end.

Definition drop_value {A} (r : result A) : result unit := (λ _, tt) <$> r.

Definition sendMarkerForLastMessage (env : Env) (now : Z) (chat : Chat)
    (type : option string) (force : bool) (io : IO) : Chat * IO * result unit :=
  let msgs := reverse (messages chat) in
  match list_find (λ m, force || is_markable m = true) msgs with
  | None => (chat, io, Ok tt)
  | Some (i, m) =>
      let '(sent, msg, io') := sendMarkerForMessage env (Some m) type force io in
      let chat' := put_message (length msgs - 1 - i)%nat msg chat in
      if sent then
        let '(chat'', r) := addChatMarker env now chat' (default m msg) (bare_jid env) None in
        (chat'', io', drop_value r)
      else (chat', io', Ok tt)
  end.

Definition handleUnreadMessage (env : Env) (now : Z) (chat : Chat)
    (message : option Message) (io : IO) : Chat * option Message * IO * result unit :=
  match message with
  | None => (chat, message, io, Ok tt)
  | Some m =>
      if negb (truthy_str (msg_body m)) || negb (is_new m) || is_hidden chat then
        (chat, message, io, Ok tt)
      else
        let '(sent, msg, io') := sendMarkerForMessage env message None false io in
        if sent then
          let '(chat', r) := addChatMarker env now chat (default m msg) (bare_jid env) None in
          (chat', msg, io', drop_value r)
        else (chat, msg, io', Ok tt)
  end.

(** The attributes of an incoming stanza [handleChatMarker] looks at, and
    its [data] argument. *)
Record MessageAttributes := mkAttrs {
  attrs_to : string;
  attrs_from : string;
  attrs_marker_id : option string;
  attrs_marker : option string
}.

Record MessageData := mkData {
  data_attrs : MessageAttributes;
  data_model : Chat
}.

(** [model.messages.findWhere({'msgid': id})] *)
Definition find_msgid (id : string) (msgs : list Message) : option (nat * Message) :=
  list_find (λ m, msgid m = id) msgs.

Definition handleChatMarker (env : Env) (now : Z) (data : MessageData) (handled : bool)
    : Chat * result bool :=
  let attrs := data_attrs data in
  let model := data_model data in
  let to_bare_jid := getBareJidFromJid (attrs_to attrs) in
  if negb (bool_decide (to_bare_jid = Some (bare_jid env))) then (model, Ok handled)
  else if truthy_str (attrs_marker_id attrs) then
    match find_msgid (default "" (attrs_marker_id attrs)) (messages model) with
    | Some (_, message) =>
        let '(model', r) :=
          addChatMarker env now model message (msg_from message) (msg_marker message) in
        (model', (λ _, true) <$> r)
    | None => (model, Ok true)
    end
  else (model, Ok handled).

Definition onMessageUpdated (env : Env) (now : Z) (chat : Chat) (message : Message)
    (io : IO) : Chat * IO * result unit :=
  if is_hidden chat || negb (String.eqb (chat_type chat) CHATROOMS_TYPE) then (chat, io, Ok tt)
  else
    match sendMarkerForMUCMessage env chat (Some message) None io with
    | (io', Ok true) =>
        let '(chat', r) := addChatMarker env now chat message (bare_jid env) None in
        (chat', io', drop_value r)
    | (io', r) => (chat, io', drop_value r)
    end.

Definition onMessageSent (env : Env) (now : Z) (chatbox : Chat) (message : Message)
    (io : IO) : Chat * option Message * IO * result unit :=
  if is_hidden chatbox || String.eqb (chat_type chatbox) CHATROOMS_TYPE then
    (chatbox, Some message, io, Ok tt)
  else
    let '(sent, msg, io') :=
      sendMarkerForMessage env (Some message) (Some "displayed") true io in
    if sent then
      let '(chatbox', r) :=
        addChatMarker env now chatbox (default message msg) (bare_jid env) None in
      (chatbox', msg, io', drop_value r)
    else (chatbox, msg, io', Ok tt).

Definition onUnreadsCleared (env : Env) (now : Z) (chat : Chat) (io : IO)
    : Chat * IO * result unit :=
  if String.eqb (chat_type chat) CHATROOMS_TYPE then
    if (0 <? num_unread_general chat) || (0 <? num_unread chat) || has_activity chat then
      let message := last (messages chat) in
      match sendMarkerForMUCMessage env chat message None io, message with
      | (io', Ok true), Some m =>
          let '(chat', r) := addChatMarker env now chat m (bare_jid env) None in
          (chat', io', drop_value r)
      | (io', r), _ => (chat, io', drop_value r)
      end
    else (chat, io, Ok tt)
  else
    if 0 <? num_unread chat then
      let message := last (messages chat) in
      let '(sent, msg, io') := sendMarkerForMessage env message None false io in
      let chat' := put_message (length (messages chat) - 1)%nat msg chat in
      match sent, msg with
      | true, Some m =>
          let '(chat'', r) := addChatMarker env now chat' m (bare_jid env) None in
          (chat'', io', drop_value r)
      | _, _ => (chat', io', Ok tt)
      end
    else (chat, io, Ok tt).

(** ** Sample data

    Romeo is the local user, in the room [lounge@montague.lit] and in a
    direct chat with Juliet. *)

Module Sample.

Definition env : Env :=
  mkEnv "romeo@montague.lit" "romeo@montague.lit/orchard" 10
        ["received"; "displayed"; "acknowledged"].

Definition room_message (id sid : string) (time : Z) : Message :=
  mkMessage "groupchat" "lounge@montague.lit/juliet" id None (Some "hello") true time true
            {["stanza_id lounge@montague.lit" := sid]} ∅.

Definition M1 : Message := room_message "id1" "s1" 1500000000250.
Definition M2 : Message := room_message "id2" "s2" 1500000060250.

(** A room message the server has not stamped. *)
Definition M3 : Message :=
  mkMessage "groupchat" "lounge@montague.lit/juliet" "id3" None (Some "hello") true
            1500000120250 true ∅ ∅.

(** A markable message of Juliet in the direct chat. *)
Definition D1 : Message :=
  mkMessage "chat" "juliet@capulet.lit/balcony" "id4" None (Some "hello") true
            1500000000250 true ∅ ∅.

(** A message Romeo sent to Juliet. *)
Definition D2 : Message :=
  mkMessage "chat" "romeo@montague.lit/orchard" "msgidX" None (Some "hello") false
            1500000000250 false ∅ ∅.

Definition room (occupants : Z) (store : list ChatMarker) : Chat :=
  mkChat CHATROOMS_TYPE "lounge@montague.lit" occupants false 0 0 false [M1; M2; M3] store.

Definition direct (msgs : list Message) : Chat :=
  mkChat "chatbox" "juliet@capulet.lit" 0 false 1 0 false msgs [].

Definition quiet : IO := mkIO [] [].

(** Juliet's marker for Romeo's message [D2]. *)
Definition marker_from_juliet : MessageAttributes :=
  mkAttrs "romeo@montague.lit/orchard" "juliet@capulet.lit/balcony"
          (Some "msgidX") (Some "received").

(** The store of a room in which Romeo has marked [M1] as received. *)
Definition received_by_romeo : list ChatMarker :=
  [mkChatMarker "s1" {["romeo@montague.lit" := "received"]} 1600000000251].

(** The time value of [new Date()] during the calls. *)
Definition now : Z := 1600000000777.

End Sample.

(** ** Notions the properties are stated with *)

(** The records of a store that list participant [P] in [marked_by]. *)
Definition holders (P : string) (store : list ChatMarker) : list ChatMarker :=
  filter (λ m, is_Some (marked_by m !! P)) store.

(** [P] points to at most one message. *)
Definition single_pointer (P : string) (store : list ChatMarker) : Prop :=
  (length (holders P store) ≤ 1)%nat.

(** No record lists [P] with an empty level; the predicate of line 59
    tests the level for truthiness and would overlook such a record. *)
Definition levels_truthy (P : string) (store : list ChatMarker) : Prop :=
  Forall (λ m, ∀ level, marked_by m !! P = Some level → level ≠ "") store.

(** The level [P] is recorded with for the message with key [key]. *)
Definition recorded_level (P key : string) (store : list ChatMarker) : option string :=
  match markers_get key store with
  | Some (_, m) => marked_by m !! P
  | None => None
  end.

(** The last stanza handed to [api.send]. *)
Definition last_sent (io : IO) : option Stanza := last (outbox io).

Definition invalid_type_error : string :=
  TypeError "Invalid XEP-0333 chat marker type".

(** No two records of a store have the same id. *)
Definition unique_ids (store : list ChatMarker) : Prop :=
  NoDup (marker_id <$> store).

(** Every level a store records is a key of [MARKER_TYPES]. *)
Definition levels_valid (store : list ChatMarker) : Prop :=
  Forall (λ m, map_Forall (λ _ level, is_marker_type level = true) (marked_by m)) store.

(** Some record with id [key] lists [P] at [level]. *)
Definition listed (P key level : string) (store : list ChatMarker) : Prop :=
  ∃ m, m ∈ store ∧ marker_id m = key ∧ marked_by m !! P = Some level.

(** What a call has handed to [api.send]: the outbox afterwards is the
    outbox before followed by [new]. *)
Definition sent_by (io io' : IO) (new : list Stanza) : Prop :=
  outbox io' = outbox io ++ new.

(** The stanza carries a level of the setting [send_chat_markers]. *)
Definition enabled (env : Env) (stanza : Stanza) : Prop :=
  includes (st_marker stanza) (send_chat_markers env) = true.

(** A call has sent at most one stanza, of an enabled level. *)
Definition sends_enabled (env : Env) (io io' : IO) : Prop :=
  ∃ new, sent_by io io' new ∧ Forall (enabled env) new ∧ (length new ≤ 1)%nat.

(** The attribute [sendMarkerForMUCMessage] reads the stanza id from. *)
Definition room_key (chat : Chat) : string := "stanza_id " +:+ chat_jid chat.

(** The test of line 100, [force || m.get('is_markable')]. *)
Definition eligible (force : bool) (m : Message) : Prop :=
  force || is_markable m = true.

(** The stanza [sendChatMarker] builds for a message. *)
Definition marker_stanza (env : Env) (m : Message) (id type : string) : Stanza :=
  mkStanza (connection_jid env) (getBareJidFromJid (msg_from m))
           (if String.eqb (msg_type m) "" then "chat" else msg_type m) type id.

(** * Properties *)

(** ** Message-key derivation *)

(** C5: for a group-conversation message, [getMessageIdToMark] answers the
    stable id stored under the room's bare address when there is one
    (a non-empty string) and the client-generated [msgid] when there is
    none; for any other message it answers the [msgid]. *)
Theorem getMessageIdToMark_derivation (message : Message) :
  let room_key := stanza_id_key (getBareJidFromJid (msg_from message)) in
  (msg_type message = "groupchat" →
   ∀ sid, msg_ids message !! room_key = Some sid → sid ≠ "" →
          getMessageIdToMark message = sid) ∧
  (msg_type message = "groupchat" →
   truthy_str (msg_ids message !! room_key) = false →
   getMessageIdToMark message = msgid message) ∧
  (msg_type message ≠ "groupchat" → getMessageIdToMark message = msgid message).
Proof.
  intros room_key. unfold getMessageIdToMark. fold room_key.
  repeat split.
  - intros Hty sid Hsid Hne.
    apply String.eqb_eq in Hty. rewrite Hty, Hsid. simpl.
    apply String.eqb_neq in Hne. by rewrite Hne.
  - intros Hty Habs.
    apply String.eqb_eq in Hty. rewrite Hty.
    destruct (msg_ids message !! room_key) as [sid|]; simpl in *; [|done].
    destruct (String.eqb sid ""); [done | discriminate].
  - intros Hty. apply String.eqb_neq in Hty. by rewrite Hty.
Qed.

Lemma getMessageIdToMark_derivation_witness :
  getMessageIdToMark Sample.M1 = "s1" ∧
  getMessageIdToMark Sample.M3 = "id3" ∧
  getMessageIdToMark Sample.D1 = "id4".
Proof.
  destruct (getMessageIdToMark_derivation Sample.M1) as [stamped _].
  destruct (getMessageIdToMark_derivation Sample.M3) as [_ [unstamped _]].
  destruct (getMessageIdToMark_derivation Sample.D1) as [_ [_ direct]].
  split; [|split].
  - apply stamped; [reflexivity | reflexivity | discriminate].
  - apply unstamped; reflexivity.
  - apply direct. discriminate.
Defined.

(** ** The room growth guard *)

Lemma over_limit_local env chat : over_limit env chat (bare_jid env) = false.
Proof.
  unfold over_limit. rewrite String.eqb_refl. simpl. apply andb_false_r.
Qed.

Lemma over_limit_other env chat by_jid :
  chat_type chat = CHATROOMS_TYPE →
  muc_chat_markers_limit env < occupants_length chat →
  by_jid ≠ bare_jid env →
  over_limit env chat by_jid = true.
Proof.
  intros Hroom Hmany Hother. unfold over_limit.
  apply String.eqb_eq in Hroom. apply String.eqb_neq in Hother.
  apply Z.ltb_lt in Hmany. by rewrite Hroom, Hother, Hmany.
Qed.

(** C4: in a room with more occupants than [muc_chat_markers_limit],
    [addChatMarker] for a participant other than the local user returns
    nothing and leaves the chat, and so its marker store, as it was; for
    the local user it does what lines 44-68 do. *)
Theorem addChatMarker_room_growth_guard env now chat message by_jid type :
  chat_type chat = CHATROOMS_TYPE →
  muc_chat_markers_limit env < occupants_length chat →
  (by_jid ≠ bare_jid env →
   addChatMarker env now chat message by_jid type = (chat, Ok None)) ∧
  addChatMarker env now chat message (bare_jid env) type =
    applyChatMarker now chat message (bare_jid env) (default "displayed" type).
Proof.
  intros Hroom Hmany. split.
  - intros Hother. unfold addChatMarker.
    by rewrite (over_limit_other _ _ _ Hroom Hmany Hother).
  - unfold addChatMarker. by rewrite over_limit_local.
Qed.

Lemma addChatMarker_room_growth_guard_witness :
  addChatMarker Sample.env Sample.now (Sample.room 11 []) Sample.M1
                "juliet@capulet.lit" (Some "displayed")
    = (Sample.room 11 [], Ok None) ∧
  markers (addChatMarker Sample.env Sample.now (Sample.room 11 []) Sample.M1
                         "romeo@montague.lit" (Some "displayed")).1
    = [mkChatMarker "s1" {["romeo@montague.lit" := "displayed"]} 1600000000251].
Proof.
  destruct (addChatMarker_room_growth_guard Sample.env Sample.now (Sample.room 11 [])
              Sample.M1 "juliet@capulet.lit" (Some "displayed")) as [other own].
  - reflexivity.
  - reflexivity.
  - split.
    + apply other. discriminate.
    + change "romeo@montague.lit" with (bare_jid Sample.env) at 1.
      rewrite own. reflexivity.
Defined.

(** ** Invalid levels *)

Lemma applyChatMarker_invalid now chat message by_jid type :
  is_marker_type type = false →
  applyChatMarker now chat message by_jid type = (chat, Throw invalid_type_error).
Proof. intros Hbad. unfold applyChatMarker. by rewrite Hbad. Qed.

(** C9, as the code has it: [sendMarkerForMUCMessage] with a level outside
    [MARKER_TYPES] throws the TypeError, having sent and logged nothing;
    [addChatMarker] with such a level throws the TypeError and leaves the
    chat as it was, except that a call the room growth guard stops
    returns nothing before the level is looked at (the chat is left as it
    was there too). *)
Theorem invalid_level_rejected env now chat message msg by_jid type io :
  is_marker_type type = false →
  sendMarkerForMUCMessage env chat msg (Some type) io = (io, Throw invalid_type_error) ∧
  (over_limit env chat by_jid = false →
   addChatMarker env now chat message by_jid (Some type) = (chat, Throw invalid_type_error)) ∧
  (over_limit env chat by_jid = true →
   addChatMarker env now chat message by_jid (Some type) = (chat, Ok None)).
Proof.
  intros Hbad. repeat split.
  - unfold sendMarkerForMUCMessage. simpl. by rewrite Hbad.
  - intros Hfree. unfold addChatMarker. rewrite Hfree. simpl.
    by apply applyChatMarker_invalid.
  - intros Hstop. unfold addChatMarker. by rewrite Hstop.
Qed.

Lemma invalid_level_rejected_witness :
  sendMarkerForMUCMessage Sample.env (Sample.room 5 []) (Some Sample.M1) (Some "read")
                          Sample.quiet
    = (Sample.quiet, Throw invalid_type_error) ∧
  addChatMarker Sample.env Sample.now (Sample.room 5 []) Sample.M1 "juliet@capulet.lit"
                (Some "read")
    = (Sample.room 5 [], Throw invalid_type_error).
Proof.
  destruct (invalid_level_rejected Sample.env Sample.now (Sample.room 5 []) Sample.M1
              (Some Sample.M1) "juliet@capulet.lit" "read" Sample.quiet) as [muc [add _]].
  - reflexivity.
  - split; [exact muc | apply add; reflexivity].
Defined.

(** C9 as stated fails: in a room over the limit, [addChatMarker] for
    another participant with the level ["read"] returns nothing instead
    of throwing. *)
Lemma invalid_level_not_always_rejected :
  is_marker_type "read" = false ∧
  addChatMarker Sample.env Sample.now (Sample.room 11 []) Sample.M1 "juliet@capulet.lit"
                (Some "read")
    = (Sample.room 11 [], Ok None) ∧
  ∀ e, (addChatMarker Sample.env Sample.now (Sample.room 11 []) Sample.M1
                      "juliet@capulet.lit" (Some "read")).2 ≠ Throw e.
Proof.
  split; [reflexivity|]. split; [reflexivity|]. intros e. discriminate.
Qed.

(** ** The marker collection *)

Section store.
Implicit Types (store : list ChatMarker) (m : ChatMarker) (id by_jid : string).

Lemma markers_get_None id store :
  markers_get id store = None ↔ Forall (λ m, marker_id m ≠ id) store.
Proof. apply list_find_None. Qed.

Lemma markers_get_Some id store i m :
  markers_get id store = Some (i, m) → store !! i = Some m ∧ marker_id m = id.
Proof. intros (? & ? & _)%list_find_Some. done. Qed.

(** Saving a record the collection was asked for leaves it where it is. *)
Lemma markers_get_save id store i m mb :
  markers_get id store = Some (i, m) →
  markers_get id (<[i := set_marked_by mb m]> store) = Some (i, set_marked_by mb m).
Proof.
  intros (Hi & Hid & Hfirst)%list_find_Some.
  apply list_find_insert_Some. right; left.
  split_and!; eauto using lookup_lt_Some.
Qed.

Lemma remove_previous_absent id by_jid store :
  markers_get id store = None → markers_get id (remove_previous by_jid store) = None.
Proof.
  rewrite !markers_get_None. intros Hall. unfold remove_previous.
  destruct (find_marked_by by_jid store) as [[j m]|] eqn:Hfind; [|done].
  apply list_find_Some in Hfind as (Hj & _ & _).
  unfold removeMarkerJID. case_decide.
  - by apply Forall_delete.
  - apply Forall_insert; [done|]. simpl.
    by eapply (Forall_lookup_1 _ _ _ _ Hall).
Qed.

Lemma markers_add_absent m store :
  markers_get (marker_id m) store = None → markers_add m store = (m, store ++ [m]).
Proof. intros Habs. unfold markers_add. by rewrite Habs. Qed.

Lemma markers_get_added m store :
  markers_get (marker_id m) store = None →
  markers_get (marker_id m) (store ++ [m]) = Some (length store, m).
Proof.
  intros Habs. unfold markers_get in *.
  rewrite list_find_app_r by done. simpl. by rewrite decide_True.
Qed.
End store.

(** ** What [addChatMarker] does in each of its cases *)

Lemma applyChatMarker_found now chat message by_jid type i marked :
  is_marker_type type = true →
  markers_get (getMessageIdToMark message) (markers chat) = Some (i, marked) →
  let marked' := set_marked_by (<[by_jid := type]> (marked_by marked)) marked in
  applyChatMarker now chat message by_jid type =
    (set_markers (<[i := marked']> (markers chat)) chat, Ok (Some marked')).
Proof. intros Hok Hget. unfold applyChatMarker. by rewrite Hok, Hget. Qed.

Lemma applyChatMarker_fresh now chat message by_jid type :
  is_marker_type type = true →
  markers_get (getMessageIdToMark message) (markers chat) = None →
  let marker :=
    mkChatMarker (getMessageIdToMark message) {[by_jid := type]}
      (setMilliseconds now (getMilliseconds (msg_time message) + 1)) in
  applyChatMarker now chat message by_jid type =
    (set_markers (remove_previous by_jid (markers chat) ++ [marker]) chat, Ok (Some marker)).
Proof.
  intros Hok Hget. unfold applyChatMarker. rewrite Hok, Hget. simpl.
  rewrite markers_add_absent; [done|]. simpl. by apply remove_previous_absent.
Qed.

(** ** Idempotence *)

Lemma over_limit_set_markers env chat by_jid store :
  over_limit env (set_markers store chat) by_jid = over_limit env chat by_jid.
Proof. reflexivity. Qed.

Lemma set_markers_twice store store' chat :
  set_markers store (set_markers store' chat) = set_markers store chat.
Proof. reflexivity. Qed.

Lemma applyChatMarker_idempotent now1 now2 chat message by_jid type :
  let once := applyChatMarker now1 chat message by_jid type in
  applyChatMarker now2 once.1 message by_jid type = once.
Proof.
  intros once. subst once.
  destruct (is_marker_type type) eqn:Hok.
  - destruct (markers_get (getMessageIdToMark message) (markers chat))
      as [[i marked]|] eqn:Hget.
    + rewrite (applyChatMarker_found now1 _ _ _ _ _ _ Hok Hget). simpl.
      pose proof (markers_get_save _ _ _ _ (<[by_jid := type]> (marked_by marked)) Hget)
        as Hget'.
      set (marked' := set_marked_by (<[by_jid := type]> (marked_by marked)) marked) in *.
      rewrite (applyChatMarker_found now2
                 (set_markers (<[i := marked']> (markers chat)) chat)
                 message by_jid type i marked' Hok Hget'). simpl.
      rewrite insert_insert_eq.
      assert (set_marked_by (<[by_jid := type]> (marked_by marked)) marked' = marked') as ->
        by done.
      by rewrite set_markers_twice, list_insert_insert_eq.
    + rewrite (applyChatMarker_fresh now1 _ _ _ _ Hok Hget). simpl.
      set (marker := mkChatMarker _ _ _).
      set (store := remove_previous by_jid (markers chat)).
      assert (markers_get (marker_id marker) store = None) as Habs
        by by apply remove_previous_absent.
      pose proof (markers_get_added _ _ Habs) as Hget'.
      rewrite (applyChatMarker_found now2 (set_markers (store ++ [marker]) chat)
                 message by_jid type (length store) marker Hok Hget'). simpl.
      rewrite insert_singleton_eq.
      assert (set_marked_by {[by_jid := type]} marker = marker) as -> by done.
      rewrite set_markers_twice, list_insert_id; [done|].
      by rewrite lookup_app_r, Nat.sub_diag.
  - by rewrite !applyChatMarker_invalid.
Qed.

(** C6: for a level of [MARKER_TYPES], [addChatMarker] returns normally,
    and a second call with the same chat, message, participant and level,
    at whatever later time, leaves the chat, and so its marker store, as
    the first call left it, and returns what the first returned. *)
Theorem addChatMarker_idempotent env now1 now2 chat message by_jid type :
  is_marker_type (default "displayed" type) = true →
  let once := addChatMarker env now1 chat message by_jid type in
  (∃ marker, once.2 = Ok marker) ∧
  addChatMarker env now2 once.1 message by_jid type = once.
Proof.
  intros Hok once. subst once. unfold addChatMarker.
  destruct (over_limit env chat by_jid) eqn:Hstop; simpl.
  - rewrite Hstop. eauto.
  - split.
    + unfold applyChatMarker. rewrite Hok. simpl.
      destruct (markers_get _ _) as [[i marked]|]; simpl; [eauto|].
      destruct (markers_add _ _); simpl. eauto.
    + assert (over_limit env (applyChatMarker now1 chat message by_jid
                                (default "displayed" type)).1 by_jid = false) as ->.
      { unfold applyChatMarker. rewrite Hok. simpl.
        destruct (markers_get _ _) as [[i marked]|]; simpl; [done|].
        by destruct (markers_add _ _). }
      apply applyChatMarker_idempotent.
Qed.

Lemma addChatMarker_idempotent_witness :
  let once :=
    addChatMarker Sample.env Sample.now (Sample.room 5 []) Sample.M1
                  "juliet@capulet.lit" (Some "received") in
  (∃ marker, once.2 = Ok marker) ∧
  addChatMarker Sample.env (Sample.now + 5000) once.1 Sample.M1
                "juliet@capulet.lit" (Some "received") = once.
Proof.
  apply (addChatMarker_idempotent Sample.env Sample.now (Sample.now + 5000)
           (Sample.room 5 []) Sample.M1 "juliet@capulet.lit" (Some "received")).
  reflexivity.
Defined.

(** ** What lines 58-60 do to the pointers

    The branch that makes a new record moves the participant's pointer:
    the lemmas below show that this branch keeps, and even restores, the
    one-pointer property, for the participant and for everybody else. *)

Lemma holders_none P (store : list ChatMarker) :
  Forall (λ m, marked_by m !! P = None) store → holders P store = [].
Proof.
  unfold holders. induction 1 as [|m store Hm _ IH]; [done|].
  rewrite filter_cons_False; [done|]. rewrite Hm. by intros [? ?].
Qed.

Lemma remove_previous_split by_jid store j m :
  find_marked_by by_jid store = Some (j, m) →
  ∃ l1 l2,
    store = l1 ++ m :: l2 ∧
    is_Some (marked_by m !! by_jid) ∧
    remove_previous by_jid store =
      l1 ++ (if decide (delete by_jid (marked_by m) = ∅) then []
             else [set_marked_by (delete by_jid (marked_by m)) m]) ++ l2.
Proof.
  intros Hfind. unfold remove_previous. rewrite Hfind.
  apply list_find_Some in Hfind as (Hj & Htruthy & _).
  apply list_elem_of_split_length in Hj as (l1 & l2 & -> & ->).
  exists l1, l2. split_and!; [done| |].
  - destruct (marked_by m !! by_jid); [eauto | discriminate].
  - unfold removeMarkerJID. case_decide.
    + by rewrite delete_middle.
    + by rewrite insert_app_r_alt, Nat.sub_diag by lia.
Qed.

Lemma remove_previous_clears by_jid store :
  levels_truthy by_jid store →
  single_pointer by_jid store →
  holders by_jid (remove_previous by_jid store) = [].
Proof.
  intros Hlevels Hone.
  destruct (find_marked_by by_jid store) as [[j m]|] eqn:Hfind.
  - destruct (remove_previous_split _ _ _ _ Hfind) as (l1 & l2 & -> & Hm & ->).
    unfold single_pointer, holders in *.
    rewrite filter_app, filter_cons_True, length_app in Hone by done. simpl in Hone.
    assert (filter (λ m, is_Some (marked_by m !! by_jid)) l1 = []) as Hl1
      by (apply nil_length_inv; lia).
    assert (filter (λ m, is_Some (marked_by m !! by_jid)) l2 = []) as Hl2
      by (apply nil_length_inv; lia).
    rewrite !filter_app, Hl1, Hl2. case_decide; [done|].
    rewrite filter_cons_False; [done|]. simpl. rewrite lookup_delete_eq. by intros [? ?].
  - unfold remove_previous. rewrite Hfind. apply holders_none.
    apply list_find_None in Hfind. unfold levels_truthy in Hlevels.
    rewrite Forall_forall in Hfind, Hlevels. apply Forall_forall. intros m Hin.
    destruct (marked_by m !! by_jid) as [level|] eqn:Hm; [|done].
    destruct (Hfind m Hin). rewrite Hm. simpl.
    pose proof (Hlevels m Hin level Hm) as Hlevel.
    apply String.eqb_neq in Hlevel. by rewrite Hlevel.
Qed.

Lemma remove_previous_others P by_jid store :
  P ≠ by_jid →
  length (holders P (remove_previous by_jid store)) = length (holders P store).
Proof.
  intros Hother.
  destruct (find_marked_by by_jid store) as [[j m]|] eqn:Hfind.
  - destruct (remove_previous_split _ _ _ _ Hfind) as (l1 & l2 & -> & _ & ->).
    unfold holders. rewrite !filter_app, !length_app. f_equal.
    destruct (decide (is_Some (marked_by m !! P))) as [Hm|Hm].
    + rewrite (filter_cons_True _ m) by done.
      case_decide as Hempty.
      * rewrite <- (lookup_delete_ne (marked_by m) by_jid P), Hempty in Hm by done.
        rewrite lookup_empty in Hm. by destruct Hm.
      * rewrite filter_cons_True; [done|]. simpl. by rewrite lookup_delete_ne.
    + rewrite (filter_cons_False _ m) by done.
      case_decide; [done|].
      rewrite filter_cons_False; [done|]. simpl. by rewrite lookup_delete_ne.
  - unfold remove_previous. by rewrite Hfind.
Qed.

(** The branch of lines 57-68: afterwards the participant is in the new
    record and nowhere else, and everybody else is in as many records as
    before. *)
Lemma new_record_moves_pointer now chat message by_jid type P :
  is_marker_type type = true →
  markers_get (getMessageIdToMark message) (markers chat) = None →
  levels_truthy by_jid (markers chat) →
  single_pointer by_jid (markers chat) →
  let store' := markers (applyChatMarker now chat message by_jid type).1 in
  length (holders by_jid store') = 1%nat ∧
  (P ≠ by_jid → length (holders P store') = length (holders P (markers chat))).
Proof.
  intros Hok Hget Hlevels Hone. rewrite applyChatMarker_fresh by done. simpl.
  unfold holders at 1 2. rewrite !filter_app.
  fold (holders by_jid (remove_previous by_jid (markers chat))).
  fold (holders P (remove_previous by_jid (markers chat))).
  split.
  - rewrite remove_previous_clears by done.
    rewrite filter_cons_True; [done|]. simpl. rewrite lookup_singleton_eq. eauto.
  - intros Hother. rewrite length_app, remove_previous_others by done.
    rewrite filter_cons_False; [simpl; lia|].
    simpl. rewrite lookup_singleton_ne by done. by intros [? ?].
Qed.

(** The branch of lines 53-56: everybody else is in as many records as
    before, and the participant is in one record more unless the record
    of the message already listed them.  Nothing is removed. *)
Lemma existing_record_adds_pointer now chat message by_jid type P i marked :
  is_marker_type type = true →
  markers_get (getMessageIdToMark message) (markers chat) = Some (i, marked) →
  let store' := markers (applyChatMarker now chat message by_jid type).1 in
  (P ≠ by_jid → length (holders P store') = length (holders P (markers chat))) ∧
  (marked_by marked !! by_jid = None →
   length (holders by_jid store') = S (length (holders by_jid (markers chat)))) ∧
  (is_Some (marked_by marked !! by_jid) →
   length (holders by_jid store') = length (holders by_jid (markers chat))).
Proof.
  intros Hok Hget. rewrite (applyChatMarker_found _ _ _ _ _ _ _ Hok Hget). simpl.
  apply markers_get_Some in Hget as [Hi _].
  apply list_elem_of_split_length in Hi as (l1 & l2 & -> & ->).
  rewrite insert_app_r_alt, Nat.sub_diag by lia. simpl.
  unfold holders. rewrite !filter_app, !length_app.
  split_and!.
  - intros Hother. f_equal.
    destruct (decide (is_Some (marked_by marked !! P))) as [Hm|Hm].
    + rewrite (filter_cons_True _ marked) by done.
      rewrite filter_cons_True; [done|]. simpl. by rewrite lookup_insert_ne.
    + rewrite (filter_cons_False _ marked) by done.
      rewrite filter_cons_False; [done|]. simpl. by rewrite lookup_insert_ne.
  - intros Hnew.
    rewrite (filter_cons_False _ marked) by (rewrite Hnew; by intros [? ?]).
    rewrite filter_cons_True by (simpl; rewrite lookup_insert_eq; eauto).
    simpl. lia.
  - intros Hold.
    rewrite (filter_cons_True _ marked) by done.
    rewrite filter_cons_True by (simpl; rewrite lookup_insert_eq; eauto).
    done.
Qed.

(** ** One pointer per participant *)

(** C1: the invariant does not survive a marker that lands on a message
    which already has a record.  Juliet marks [M1], Mercutio marks [M2],
    then Juliet marks [M2]: the record of [M2] exists, so lines 53-56 add
    Juliet to it and return, and her entry in the record of [M1] stays.
    Up to the third call she is in one record, after it in two. *)
Theorem single_pointer_lost_on_existing_record :
  let juliet := "juliet@capulet.lit" in
  let mercutio := "mercutio@montague.lit" in
  let add chat message by_jid type :=
    (addChatMarker Sample.env Sample.now chat message by_jid (Some type)).1 in
  let chat1 := add (Sample.room 5 []) Sample.M1 juliet "received" in
  let chat2 := add chat1 Sample.M2 mercutio "received" in
  let chat3 := add chat2 Sample.M2 juliet "displayed" in
  single_pointer juliet (markers chat1) ∧
  single_pointer juliet (markers chat2) ∧
  markers chat3 =
    [mkChatMarker "s1" {[juliet := "received"]} 1600000000251;
     mkChatMarker "s2" (<[juliet := "displayed"]> {[mercutio := "received"]}) 1600000000251] ∧
  length (holders juliet (markers chat3)) = 2%nat ∧
  ¬ single_pointer juliet (markers chat3).
Proof.
  cbv zeta. unfold single_pointer.
  assert (Hstore :
    markers (addChatMarker Sample.env Sample.now
      (addChatMarker Sample.env Sample.now
        (addChatMarker Sample.env Sample.now (Sample.room 5 []) Sample.M1
           "juliet@capulet.lit" (Some "received")).1
        Sample.M2 "mercutio@montague.lit" (Some "received")).1
      Sample.M2 "juliet@capulet.lit" (Some "displayed")).1 =
    [mkChatMarker "s1" {["juliet@capulet.lit" := "received"]} 1600000000251;
     mkChatMarker "s2" (<["juliet@capulet.lit" := "displayed"]>
                          {["mercutio@montague.lit" := "received"]}) 1600000000251])
    by (vm_compute; reflexivity).
  split_and!.
  - vm_compute. lia.
  - vm_compute. lia.
  - exact Hstore.
  - rewrite Hstore. reflexivity.
  - rewrite Hstore. vm_compute. lia.
Qed.

(** ** The time of a new record *)

Lemma setMilliseconds_field now ms :
  0 ≤ ms < 1000 → getMilliseconds (setMilliseconds now ms) = ms.
Proof.
  intros Hms. unfold getMilliseconds, setMilliseconds.
  rewrite (Z.div_mod now 1000) at 1 by lia.
  replace (1000 * (now `div` 1000) + now `mod` 1000 - now `mod` 1000 + ms)
    with (ms + (now `div` 1000) * 1000) by lia.
  rewrite Z_mod_plus_full. by apply Z.mod_small.
Qed.

Lemma setMilliseconds_second now ms :
  0 ≤ ms < 1000 → setMilliseconds now ms `div` 1000 = now `div` 1000.
Proof.
  intros Hms. unfold setMilliseconds.
  rewrite (Z.div_mod now 1000) at 1 by lia.
  replace (1000 * (now `div` 1000) + now `mod` 1000 - now `mod` 1000 + ms)
    with (ms + (now `div` 1000) * 1000) by lia.
  rewrite Z_div_plus_full by lia. rewrite Z.div_small by lia. lia.
Qed.

(** The time of a record made by line 65 lies in the second of the clock,
    whatever the time of the message; only the millisecond field comes
    from the message. *)
Lemma new_marker_time_in_current_second now chat message by_jid type :
  is_marker_type type = true →
  markers_get (getMessageIdToMark message) (markers chat) = None →
  msg_time message `mod` 1000 ≠ 999 →
  ∃ marker,
    (applyChatMarker now chat message by_jid type).2 = Ok (Some marker) ∧
    marker_time marker `div` 1000 = now `div` 1000 ∧
    marker_time marker `mod` 1000 = msg_time message `mod` 1000 + 1.
Proof.
  intros Hok Hget Hms. rewrite applyChatMarker_fresh by done. simpl.
  eexists. split; [done|]. simpl.
  assert (0 ≤ msg_time message `mod` 1000 < 1000) by (apply Z.mod_pos_bound; lia).
  split.
  - apply setMilliseconds_second. unfold getMilliseconds. lia.
  - apply setMilliseconds_field. unfold getMilliseconds. lia.
Qed.

(** C8: the record made for [M1], a message of July 2017, while the clock
    shows September 2020, gets a time in September 2020: the clock's time
    with the millisecond field set to that of the message plus one, not
    the time of the message plus one millisecond. *)
Theorem new_marker_time_is_not_message_time :
  msg_time Sample.M1 = 1500000000250 ∧
  Sample.now = 1600000000777 ∧
  (addChatMarker Sample.env Sample.now (Sample.room 5 []) Sample.M1
                 "juliet@capulet.lit" (Some "received")).2
    = Ok (Some (mkChatMarker "s1" {["juliet@capulet.lit" := "received"]} 1600000000251)) ∧
  1600000000251 ≠ msg_time Sample.M1 + 1.
Proof. split_and!; [reflexivity..|]. vm_compute. discriminate. Qed.

(** ** The rank guard of room markers *)

(** Once the local user has any level recorded for the message, line 146
    stops the call: the stored level is a non-empty string, and that
    string is the value of the condition. *)
Lemma sendMarkerForMUCMessage_marked env chat m level type io :
  own_mark env chat (getMessageIdToMark m) = Some level →
  level ≠ "" →
  is_marker_type type = true →
  sendMarkerForMUCMessage env chat (Some m) (Some type) io = (io, Ok false).
Proof.
  intros Hown Hlevel Hok. unfold sendMarkerForMUCMessage. simpl. rewrite Hok. simpl.
  destruct (includes type (send_chat_markers env)); [|done]. simpl.
  destruct (is_markable m); [|done].
  unfold already_marked. rewrite Hown. simpl.
  apply String.eqb_neq in Hlevel. by rewrite Hlevel.
Qed.

(** C2: Romeo has marked the markable, stamped room message [M1] as
    received; all three levels are enabled.  A marker of the higher level
    [displayed] is not sent, and neither is [acknowledged]: the call
    returns [false] with the outbox untouched.  Without the earlier mark
    the same call sends the marker. *)
Theorem higher_rank_room_marker_suppressed :
  let marked := Sample.room 5 Sample.received_by_romeo in
  table_get MARKER_TYPES "received" = Some 0 ∧
  table_get MARKER_TYPES "displayed" = Some 1 ∧
  table_get MARKER_TYPES "acknowledged" = Some 2 ∧
  own_mark Sample.env marked (getMessageIdToMark Sample.M1) = Some "received" ∧
  sendMarkerForMUCMessage Sample.env marked (Some Sample.M1) (Some "displayed") Sample.quiet
    = (Sample.quiet, Ok false) ∧
  sendMarkerForMUCMessage Sample.env marked (Some Sample.M1) (Some "acknowledged") Sample.quiet
    = (Sample.quiet, Ok false) ∧
  sendMarkerForMUCMessage Sample.env (Sample.room 5 []) (Some Sample.M1) (Some "displayed")
                          Sample.quiet
    = (mkIO [mkStanza "romeo@montague.lit/orchard" (Some "lounge@montague.lit")
                      "groupchat" "displayed" "s1"] [],
       Ok true).
Proof. split_and!; reflexivity. Qed.

(** ** Incoming markers *)

(** [handleChatMarker] reads neither the sender nor the level of the
    incoming stanza. *)
Lemma handleChatMarker_ignores_sender_and_level env now to marker_id model handled
    from from' marker marker' :
  handleChatMarker env now (mkData (mkAttrs to from marker_id marker) model) handled =
  handleChatMarker env now (mkData (mkAttrs to from' marker_id marker') model) handled.
Proof. reflexivity. Qed.

(** The call line 193 makes when the marked message is found. *)
Lemma handleChatMarker_found env now attrs model handled id i message :
  getBareJidFromJid (attrs_to attrs) = Some (bare_jid env) →
  attrs_marker_id attrs = Some id →
  id ≠ "" →
  find_msgid id (messages model) = Some (i, message) →
  handleChatMarker env now (mkData attrs model) handled =
    let call := addChatMarker env now model message (msg_from message) (msg_marker message) in
    (call.1, (λ _, true) <$> call.2).
Proof.
  intros Hto Hid Hne Hfind. unfold handleChatMarker. simpl.
  rewrite Hto, bool_decide_eq_true_2 by done. simpl.
  rewrite Hid. simpl. apply String.eqb_neq in Hne. rewrite Hne. simpl.
  rewrite Hfind. by destruct (addChatMarker _ _ _ _ _ _).
Qed.

(** C3: Juliet's stanza marks Romeo's message [msgidX] as received.  The
    handler reports [true], but the record it makes credits the sender of
    the marked message, Romeo's own full address, with the default level
    [displayed]; Juliet and [received] appear nowhere in the store. *)
Theorem incoming_marker_credits_message_author :
  let data := mkData Sample.marker_from_juliet (Sample.direct [Sample.D2]) in
  let out := handleChatMarker Sample.env Sample.now data false in
  attrs_from (data_attrs data) = "juliet@capulet.lit/balcony" ∧
  attrs_marker (data_attrs data) = Some "received" ∧
  find_msgid "msgidX" (messages (data_model data)) = Some (0%nat, Sample.D2) ∧
  out.2 = Ok true ∧
  markers out.1 =
    [mkChatMarker "msgidX" {["romeo@montague.lit/orchard" := "displayed"]} 1600000000251] ∧
  out = (let call := addChatMarker Sample.env Sample.now (Sample.direct [Sample.D2])
                                   Sample.D2 (msg_from Sample.D2) None in
         (call.1, Ok true)) ∧
  holders "juliet@capulet.lit/balcony" (markers out.1) = [] ∧
  holders "juliet@capulet.lit" (markers out.1) = [].
Proof. split_and!; reflexivity. Qed.

(** ** Bookkeeping on the marked message *)

Lemma marked_field_is_not_field_name type : "marked_" +:+ type ≠ "field_name".
Proof. discriminate. Qed.

(** Whatever [sendMarkerForMessage] does, the attribute [marked_<type>] of
    the message is afterwards what it was before: line 123 saves under the
    name [field_name]. *)
Lemma sendMarkerForMessage_level_field_untouched env m type force io :
  let out := sendMarkerForMessage env (Some m) (Some type) force io in
  ∃ m', out.1.2 = Some m' ∧
        msg_lists m' !! ("marked_" +:+ type) = msg_lists m !! ("marked_" +:+ type).
Proof.
  unfold sendMarkerForMessage. simpl.
  destruct (includes type (send_chat_markers env)); simpl; [|eauto].
  destruct (is_markable m || force); simpl; [|eauto].
  eexists. split; [done|]. simpl.
  apply lookup_insert_ne. intros Heq. by apply (marked_field_is_not_field_name type).
Qed.

(** C7: a displayed marker for Juliet's markable message [D1] is sent and
    the call returns [true], yet the message has no [marked_displayed]
    afterwards; Romeo's address sits under the attribute [field_name]. *)
Theorem sent_marker_saved_under_field_name :
  let out := sendMarkerForMessage Sample.env (Some Sample.D1) (Some "displayed") false
                                  Sample.quiet in
  out.1.1 = true ∧
  outbox out.2 =
    [mkStanza "romeo@montague.lit/orchard" (Some "juliet@capulet.lit") "chat"
              "displayed" "id4"] ∧
  ∃ m', out.1.2 = Some m' ∧
        msg_lists m' !! "marked_displayed" = None ∧
        msg_lists m' !! "field_name" = Some ["romeo@montague.lit"].
Proof.
  split_and!; [reflexivity..|]. eexists. split_and!; reflexivity.
Qed.

(** ** The level recorded for the local user *)

Lemma getMessageIdToMark_save_list name value m :
  getMessageIdToMark (save_list name value m) = getMessageIdToMark m.
Proof. reflexivity. Qed.

(** Past the guard and with a level of [MARKER_TYPES], [addChatMarker]
    returns a record, and the store then holds the participant at that
    level for the message. *)
Lemma addChatMarker_records env now chat message by_jid type :
  over_limit env chat by_jid = false →
  is_marker_type (default "displayed" type) = true →
  let out := addChatMarker env now chat message by_jid type in
  (∃ marker, out.2 = Ok (Some marker)) ∧
  recorded_level by_jid (getMessageIdToMark message) (markers out.1)
    = Some (default "displayed" type).
Proof.
  intros Hfree Hok. unfold addChatMarker. rewrite Hfree. cbv zeta.
  unfold recorded_level.
  destruct (markers_get (getMessageIdToMark message) (markers chat))
    as [[i marked]|] eqn:Hget.
  - rewrite (applyChatMarker_found _ _ _ _ _ _ _ Hok Hget). simpl.
    split; [eauto|].
    rewrite (markers_get_save _ _ _ _ _ Hget). simpl. apply lookup_insert_eq.
  - rewrite (applyChatMarker_fresh _ _ _ _ _ Hok Hget). simpl.
    split; [eauto|].
    set (marker := mkChatMarker _ _ _).
    assert (markers_get (marker_id marker) (remove_previous by_jid (markers chat)) = None)
      as Habs by by apply remove_previous_absent.
    change (getMessageIdToMark message) with (marker_id marker).
    rewrite (markers_get_added _ _ Habs). simpl. apply lookup_singleton_eq.
Qed.

Lemma addChatMarker_local_displayed env now chat message :
  let out := addChatMarker env now chat message (bare_jid env) None in
  drop_value out.2 = Ok tt ∧
  recorded_level (bare_jid env) (getMessageIdToMark message) (markers out.1)
    = Some "displayed".
Proof.
  destruct (addChatMarker_records env now chat message (bare_jid env) None)
    as [[marker Hret] Hlevel]; [apply over_limit_local | reflexivity |].
  cbv zeta. split; [|exact Hlevel]. by rewrite Hret.
Qed.

Lemma markers_put_message i msg chat : markers (put_message i msg chat) = markers chat.
Proof. by destruct msg. Qed.

(** The two ways [sendMarkerForMessage] ends for a message that is there. *)
Lemma sendMarkerForMessage_cases env m type force io :
  let level := default "displayed" type in
  let out := sendMarkerForMessage env (Some m) type force io in
  out = (false, Some m, io) ∨
  ∃ value,
    out = (true, Some (save_list "field_name" value m),
           sendChatMarker env (getBareJidFromJid (msg_from m)) (msgid m) level (msg_type m) io).
Proof.
  unfold sendMarkerForMessage. cbv zeta.
  destruct (includes _ _); simpl; [|by left].
  destruct (is_markable m || force); [right; eauto | by left].
Qed.

(** The ways [sendMarkerForMUCMessage] ends when called without a level. *)
Lemma sendMarkerForMUCMessage_default_cases env chat msg io :
  let out := sendMarkerForMUCMessage env chat msg None io in
  (out.2 = Ok false ∧ outbox out.1 = outbox io) ∨
  ∃ m id,
    msg = Some m ∧
    out = (sendChatMarker env (getBareJidFromJid (msg_from m)) id "displayed" (msg_type m) io,
           Ok true).
Proof.
  unfold sendMarkerForMUCMessage. cbv zeta. simpl.
  destruct msg as [m|]; [|by left].
  destruct (includes _ _); simpl; [|by left].
  destruct (is_markable m); [|by left].
  destruct (already_marked _ _ _ _); [by left|].
  destruct (truthy_str _); simpl; [right; eauto | by left].
Qed.


Lemma sendMarkerForLastMessage_records env now chat type force io :
  let out := sendMarkerForLastMessage env now chat type force io in
  outbox out.1.2 ≠ outbox io →
  ∃ m stanza,
    m ∈ messages chat ∧
    outbox out.1.2 = outbox io ++ [stanza] ∧
    st_marker stanza = default "displayed" type ∧
    st_marked_id stanza = msgid m ∧
    out.2 = Ok tt ∧
    recorded_level (bare_jid env) (getMessageIdToMark m) (markers out.1.1)
      = Some "displayed".
Proof.
  unfold sendMarkerForLastMessage. cbv zeta.
  destruct (list_find _ _) as [[i m]|] eqn:Hfind; [|done].
  apply list_find_Some in Hfind as (Hm%list_elem_of_lookup_2 & _ & _).
  rewrite elem_of_reverse in Hm.
  destruct (sendMarkerForMessage_cases env m type force io) as [-> | [value ->]];
    simpl; [done|].
  intros _.
  set (m' := save_list "field_name" value m).
  set (chat' := set_messages _ chat).
  pose proof (addChatMarker_local_displayed env now chat' m') as [Hret Hlevel].
  destruct (addChatMarker env now chat' m' (bare_jid env) None) as [chat'' r]. simpl in *.
  exists m. eexists. split_and!; done.
Qed.

Lemma handleUnreadMessage_records env now chat message io :
  let out := handleUnreadMessage env now chat message io in
  outbox out.1.2 ≠ outbox io →
  ∃ m stanza,
    message = Some m ∧
    outbox out.1.2 = outbox io ++ [stanza] ∧
    st_marker stanza = "displayed" ∧
    out.2 = Ok tt ∧
    recorded_level (bare_jid env) (getMessageIdToMark m) (markers out.1.1.1)
      = Some "displayed".
Proof.
  unfold handleUnreadMessage. cbv zeta.
  destruct message as [m|]; [|done].
  destruct (_ || _); [done|].
  destruct (sendMarkerForMessage_cases env m None false io) as [-> | [value ->]];
    simpl; [done|].
  intros _.
  set (m' := save_list "field_name" value m).
  pose proof (addChatMarker_local_displayed env now chat m') as [Hret Hlevel].
  destruct (addChatMarker env now chat m' (bare_jid env) None) as [chat' r]. simpl in *.
  exists m. eexists. split_and!; done.
Qed.

Lemma onUnreadsCleared_records env now chat io :
  let out := onUnreadsCleared env now chat io in
  outbox out.1.2 ≠ outbox io →
  ∃ m stanza,
    last (messages chat) = Some m ∧
    outbox out.1.2 = outbox io ++ [stanza] ∧
    st_marker stanza = "displayed" ∧
    out.2 = Ok tt ∧
    recorded_level (bare_jid env) (getMessageIdToMark m) (markers out.1.1)
      = Some "displayed".
Proof.
  unfold onUnreadsCleared. cbv zeta.
  destruct (String.eqb (chat_type chat) CHATROOMS_TYPE).
  - destruct (_ || _); [|done].
    destruct (sendMarkerForMUCMessage_default_cases env chat (last (messages chat)) io)
      as [[Hret Hout] | (m & id & Hlast & Hsent)].
    + destruct (sendMarkerForMUCMessage _ _ _ _ _) as [io' r]. simpl in *. subst r.
      destruct (last (messages chat)); simpl; intros Hne; by destruct Hne.
    + rewrite Hsent, Hlast. intros _.
      pose proof (addChatMarker_local_displayed env now chat m) as [Hret Hlevel].
      destruct (addChatMarker env now chat m (bare_jid env) None) as [chat' r].
      simpl in *. exists m. eexists. split_and!; done.
  - destruct (0 <? num_unread chat); [|done].
    destruct (last (messages chat)) as [m|] eqn:Hlast; [|done].
    destruct (sendMarkerForMessage_cases env m None false io) as [-> | [value ->]];
      simpl; [done|].
    intros _.
    set (m' := save_list "field_name" value m).
    set (chat' := set_messages _ chat).
    pose proof (addChatMarker_local_displayed env now chat' m') as [Hret Hlevel].
    destruct (addChatMarker env now chat' m' (bare_jid env) None) as [chat'' r].
    simpl in *. exists m. eexists. split_and!; done.
Qed.

(** C10: whenever [sendMarkerForLastMessage], [handleUnreadMessage] or
    [onUnreadsCleared] sends a marker, the call ends normally and the
    store then holds the local user at the level [displayed] for the
    marked message, since [addChatMarker] is called without a level.
    [sendMarkerForLastMessage] transmits the level it was given, so for
    [received] or [acknowledged] the level stored differs from the level
    transmitted; the other two transmit [displayed]. *)
Theorem local_record_always_displayed env now chat type force message io :
  (let out := sendMarkerForLastMessage env now chat type force io in
   outbox out.1.2 ≠ outbox io →
   ∃ m stanza,
     m ∈ messages chat ∧
     outbox out.1.2 = outbox io ++ [stanza] ∧
     st_marker stanza = default "displayed" type ∧
     st_marked_id stanza = msgid m ∧
     out.2 = Ok tt ∧
     recorded_level (bare_jid env) (getMessageIdToMark m) (markers out.1.1)
       = Some "displayed" ∧
     (default "displayed" type ≠ "displayed" →
      recorded_level (bare_jid env) (getMessageIdToMark m) (markers out.1.1)
        ≠ Some (st_marker stanza))) ∧
  (let out := handleUnreadMessage env now chat message io in
   outbox out.1.2 ≠ outbox io →
   ∃ m stanza,
     message = Some m ∧
     outbox out.1.2 = outbox io ++ [stanza] ∧
     st_marker stanza = "displayed" ∧
     out.2 = Ok tt ∧
     recorded_level (bare_jid env) (getMessageIdToMark m) (markers out.1.1.1)
       = Some "displayed") ∧
  (let out := onUnreadsCleared env now chat io in
   outbox out.1.2 ≠ outbox io →
   ∃ m stanza,
     last (messages chat) = Some m ∧
     outbox out.1.2 = outbox io ++ [stanza] ∧
     st_marker stanza = "displayed" ∧
     out.2 = Ok tt ∧
     recorded_level (bare_jid env) (getMessageIdToMark m) (markers out.1.1)
       = Some "displayed").
Proof.
  split_and!.
  - intros out Hsent.
    destruct (sendMarkerForLastMessage_records env now chat type force io Hsent)
      as (m & stanza & Hm & Hout & Hmarker & Hid & Hret & Hlevel).
    exists m, stanza. split_and!; try done.
    intros Hother. fold out in Hlevel. rewrite Hlevel, Hmarker. congruence.
  - apply handleUnreadMessage_records.
  - apply onUnreadsCleared_records.
Qed.

Lemma local_record_always_displayed_witness :
  (let out := sendMarkerForLastMessage Sample.env Sample.now (Sample.room 5 [])
                                       (Some "received") false Sample.quiet in
   ∃ m stanza,
     m ∈ [Sample.M1; Sample.M2; Sample.M3] ∧
     outbox out.1.2 = [stanza] ∧
     st_marker stanza = "received" ∧
     st_marked_id stanza = msgid m ∧
     out.2 = Ok tt ∧
     recorded_level "romeo@montague.lit" (getMessageIdToMark m) (markers out.1.1)
       = Some "displayed" ∧
     ("received" ≠ "displayed" →
      recorded_level "romeo@montague.lit" (getMessageIdToMark m) (markers out.1.1)
        ≠ Some (st_marker stanza))) ∧
  (let out := handleUnreadMessage Sample.env Sample.now (Sample.direct [Sample.D1])
                                  (Some Sample.D1) Sample.quiet in
   ∃ m stanza,
     Some Sample.D1 = Some m ∧
     outbox out.1.2 = [stanza] ∧
     st_marker stanza = "displayed" ∧
     out.2 = Ok tt ∧
     recorded_level "romeo@montague.lit" (getMessageIdToMark m) (markers out.1.1.1)
       = Some "displayed") ∧
  (let out := onUnreadsCleared Sample.env Sample.now (Sample.direct [Sample.D1])
                               Sample.quiet in
   ∃ m stanza,
     Some Sample.D1 = Some m ∧
     outbox out.1.2 = [stanza] ∧
     st_marker stanza = "displayed" ∧
     out.2 = Ok tt ∧
     recorded_level "romeo@montague.lit" (getMessageIdToMark m) (markers out.1.1)
       = Some "displayed").
Proof.
  destruct (local_record_always_displayed Sample.env Sample.now (Sample.room 5 [])
              (Some "received") false (Some Sample.D1) Sample.quiet) as [last_message _].
  destruct (local_record_always_displayed Sample.env Sample.now (Sample.direct [Sample.D1])
              None false (Some Sample.D1) Sample.quiet) as [_ [unread cleared]].
  split; [|split].
  - apply last_message. vm_compute. discriminate.
  - apply unread. vm_compute. discriminate.
  - apply cleared. vm_compute. discriminate.
Defined.

(** * Further properties *)

(** ** The marker store across a call of [addChatMarker] *)

Lemma addChatMarker_only_markers env now chat message by_jid type :
  let out := addChatMarker env now chat message by_jid type in
  out.1 = set_markers (markers out.1) chat.
Proof.
  unfold addChatMarker. cbv zeta.
  destruct (over_limit env chat by_jid); [by destruct chat|].
  unfold applyChatMarker.
  destruct (negb _); [by destruct chat|].
  destruct (markers_get _ _) as [[i marked]|]; [done|].
  by destruct (markers_add _ _).
Qed.

(** The store [addChatMarker] leaves: the same, the found record saved,
    or the previous pointer removed and a new record appended. *)
Lemma addChatMarker_store_cases env now chat message by_jid type :
  let store' := markers (addChatMarker env now chat message by_jid type).1 in
  let level := default "displayed" type in
  store' = markers chat ∨
  (is_marker_type level = true ∧
   ∃ i marked,
     markers_get (getMessageIdToMark message) (markers chat) = Some (i, marked) ∧
     store' = <[i := set_marked_by (<[by_jid := level]> (marked_by marked)) marked]>
                (markers chat)) ∨
  (is_marker_type level = true ∧
   markers_get (getMessageIdToMark message) (markers chat) = None ∧
   ∃ time,
     store' = remove_previous by_jid (markers chat) ++
              [mkChatMarker (getMessageIdToMark message) {[by_jid := level]} time]).
Proof.
  unfold addChatMarker. cbv zeta.
  destruct (over_limit env chat by_jid); [by left|].
  destruct (is_marker_type (default "displayed" type)) eqn:Hok.
  - destruct (markers_get (getMessageIdToMark message) (markers chat))
      as [[i marked]|] eqn:Hget.
    + rewrite (applyChatMarker_found _ _ _ _ _ _ _ Hok Hget). right; left. eauto.
    + rewrite (applyChatMarker_fresh _ _ _ _ _ Hok Hget). right; right. eauto.
  - rewrite applyChatMarker_invalid by done. by left.
Qed.

Lemma remove_previous_shape by_jid store :
  remove_previous by_jid store = store ∨
  ∃ l1 m l2,
    store = l1 ++ m :: l2 ∧
    (remove_previous by_jid store = l1 ++ l2 ∨
     remove_previous by_jid store =
       l1 ++ set_marked_by (delete by_jid (marked_by m)) m :: l2).
Proof.
  destruct (find_marked_by by_jid store) as [[j m]|] eqn:Hfind.
  - right. destruct (remove_previous_split _ _ _ _ Hfind) as (l1 & l2 & Hstore & _ & Hrem).
    exists l1, m, l2. split; [done|]. rewrite Hrem. case_decide; eauto.
  - left. unfold remove_previous. by rewrite Hfind.
Qed.

Lemma remove_previous_ids by_jid store :
  (marker_id <$> remove_previous by_jid store) `sublist_of` (marker_id <$> store).
Proof.
  destruct (remove_previous_shape by_jid store) as [-> | (l1 & m & l2 & Hstore & [-> | ->])];
    [done|rewrite Hstore..].
  - rewrite !fmap_app, fmap_cons. apply sublist_app; [done|]. by apply sublist_cons.
  - by rewrite !fmap_app, !fmap_cons.
Qed.

Lemma unique_ids_save store i m mb :
  unique_ids store → store !! i = Some m →
  unique_ids (<[i := set_marked_by mb m]> store).
Proof.
  unfold unique_ids. intros Hunique Hi.
  rewrite list_fmap_insert. simpl. rewrite list_insert_id; [done|].
  by rewrite list_lookup_fmap, Hi.
Qed.

Lemma unique_ids_remove_previous by_jid store :
  unique_ids store → unique_ids (remove_previous by_jid store).
Proof.
  unfold unique_ids. intros Hunique.
  eapply sublist_NoDup; [done | apply remove_previous_ids].
Qed.

Lemma unique_ids_append store m :
  unique_ids store → markers_get (marker_id m) store = None →
  unique_ids (store ++ [m]).
Proof.
  unfold unique_ids. intros Hunique Habs.
  rewrite fmap_app. apply NoDup_app. split_and!; [done| |apply NoDup_singleton].
  intros id Hin Hnew. simpl in Hnew. apply list_elem_of_singleton in Hnew as ->.
  apply markers_get_None in Habs. rewrite Forall_forall in Habs.
  apply list_elem_of_fmap in Hin as (m' & Hid & Hm'). by apply (Habs m' Hm').
Qed.

(** X1: [addChatMarker] keeps the ids of the store distinct: a store
    without two records of the same id has none afterwards either. *)
Theorem addChatMarker_keeps_ids_unique env now chat message by_jid type :
  unique_ids (markers chat) →
  unique_ids (markers (addChatMarker env now chat message by_jid type).1).
Proof.
  intros Hunique.
  destruct (addChatMarker_store_cases env now chat message by_jid type)
    as [-> | [(_ & i & marked & Hget & ->) | (_ & Hget & time & ->)]]; [done| |].
  - apply markers_get_Some in Hget as [Hi _]. by apply unique_ids_save.
  - apply unique_ids_append; [by apply unique_ids_remove_previous|].
    simpl. by apply remove_previous_absent.
Qed.

Lemma addChatMarker_keeps_ids_unique_witness :
  unique_ids (markers (addChatMarker Sample.env Sample.now
                         (Sample.room 5 Sample.received_by_romeo) Sample.M2
                         "romeo@montague.lit" (Some "displayed")).1).
Proof.
  apply (addChatMarker_keeps_ids_unique Sample.env Sample.now
           (Sample.room 5 Sample.received_by_romeo) Sample.M2 "romeo@montague.lit"
           (Some "displayed")).
  unfold unique_ids. simpl. apply NoDup_singleton.
Defined.

(** X2: a call of [addChatMarker] never shrinks the store and adds at most
    one record to it. *)
Theorem addChatMarker_store_size env now chat message by_jid type :
  let store' := markers (addChatMarker env now chat message by_jid type).1 in
  (length (markers chat) ≤ length store' ≤ length (markers chat) + 1)%nat.
Proof.
  cbv zeta.
  destruct (addChatMarker_store_cases env now chat message by_jid type)
    as [-> | [(_ & i & marked & _ & ->) | (_ & _ & time & ->)]]; [lia| |].
  - rewrite length_insert. lia.
  - rewrite length_app. simpl.
    destruct (remove_previous_shape by_jid (markers chat))
      as [-> | (l1 & m & l2 & Hstore & [-> | ->])]; [lia|rewrite Hstore..];
      rewrite !length_app; simpl; lia.
Qed.

Lemma remove_previous_levels_valid by_jid store :
  levels_valid store → levels_valid (remove_previous by_jid store).
Proof.
  unfold levels_valid.
  destruct (remove_previous_shape by_jid store) as [-> | (l1 & m & l2 & -> & [-> | ->])];
    [done|..]; rewrite !Forall_app, !Forall_cons; intros (? & ? & ?); [done|].
  split_and!; [done| |done]. simpl. by apply map_Forall_delete.
Qed.

(** X3: [addChatMarker] keeps the recorded levels valid: when every level
    of the store is a key of [MARKER_TYPES], the same holds afterwards,
    whatever level the call was given. *)
Theorem addChatMarker_keeps_levels_valid env now chat message by_jid type :
  levels_valid (markers chat) →
  levels_valid (markers (addChatMarker env now chat message by_jid type).1).
Proof.
  intros Hvalid.
  destruct (addChatMarker_store_cases env now chat message by_jid type)
    as [-> | [(Hok & i & marked & Hget & ->) | (Hok & _ & time & ->)]]; [done| |].
  - apply markers_get_Some in Hget as [Hi _].
    apply Forall_insert; [done|]. simpl. apply map_Forall_insert_2; [done|].
    by eapply (Forall_lookup_1 _ _ _ _ Hvalid).
  - apply Forall_app. split; [by apply remove_previous_levels_valid|].
    apply Forall_singleton. simpl. by apply map_Forall_singleton.
Qed.

Lemma addChatMarker_keeps_levels_valid_witness :
  levels_valid (markers (addChatMarker Sample.env Sample.now
                           (Sample.room 5 Sample.received_by_romeo) Sample.M2
                           "romeo@montague.lit" (Some "read")).1) ∧
  levels_valid (markers (addChatMarker Sample.env Sample.now
                           (Sample.room 5 Sample.received_by_romeo) Sample.M2
                           "romeo@montague.lit" (Some "acknowledged")).1).
Proof.
  assert (levels_valid Sample.received_by_romeo) as Hvalid.
  { apply Forall_singleton. simpl. by apply map_Forall_singleton. }
  split.
  - by apply (addChatMarker_keeps_levels_valid Sample.env Sample.now
                (Sample.room 5 Sample.received_by_romeo) Sample.M2 "romeo@montague.lit"
                (Some "read")).
  - by apply (addChatMarker_keeps_levels_valid Sample.env Sample.now
                (Sample.room 5 Sample.received_by_romeo) Sample.M2 "romeo@montague.lit"
                (Some "acknowledged")).
Defined.

(** ** What a marker of one participant does to the others *)

Lemma listed_nil P key level : listed P key level [] ↔ False.
Proof. unfold listed. split; [|done]. intros (m & Hm & _). by apply elem_of_nil in Hm. Qed.

Lemma listed_cons P key level m store :
  listed P key level (m :: store) ↔
  (marker_id m = key ∧ marked_by m !! P = Some level) ∨ listed P key level store.
Proof.
  unfold listed. split.
  - intros (m' & [-> | Hm']%elem_of_cons & ? & ?); eauto.
  - intros [[? ?] | (m' & ? & ? & ?)].
    + exists m. split; [apply elem_of_cons; by left | done].
    + exists m'. split; [apply elem_of_cons; by right | done].
Qed.

Lemma listed_app P key level l1 l2 :
  listed P key level (l1 ++ l2) ↔ listed P key level l1 ∨ listed P key level l2.
Proof.
  induction l1 as [|m l1 IH]; simpl.
  - rewrite listed_nil. tauto.
  - rewrite !listed_cons, IH. tauto.
Qed.

Lemma unique_ids_same_record store m m' :
  unique_ids store → m ∈ store → m' ∈ store → marker_id m = marker_id m' → m = m'.
Proof.
  unfold unique_ids. induction store as [|x store IH]; intros Hunique Hm Hm' Hid.
  - by apply elem_of_nil in Hm.
  - rewrite fmap_cons in Hunique. apply NoDup_cons in Hunique as [Hx Hunique].
    apply elem_of_cons in Hm as [-> | Hm]; apply elem_of_cons in Hm' as [-> | Hm'].
    + done.
    + destruct Hx. rewrite Hid. by apply list_elem_of_fmap_2.
    + destruct Hx. rewrite <- Hid. by apply list_elem_of_fmap_2.
    + by apply IH.
Qed.

(** In a store of distinct ids, the level read through
    [markers.get(key)] is the level of any record with that id. *)
Lemma recorded_level_listed P key level store :
  unique_ids store →
  recorded_level P key store = Some level ↔ listed P key level store.
Proof.
  intros Hunique. unfold recorded_level, listed. split.
  - destruct (markers_get key store) as [[i m]|] eqn:Hget; [|done].
    intros Hlevel. apply list_find_Some in Hget as (Hi%list_elem_of_lookup_2 & Hid & _).
    eauto.
  - intros (m & Hm & Hid & Hlevel).
    destruct (list_find_elem_of (λ m, marker_id m = key) store m Hm Hid) as [[i m'] Hget].
    unfold markers_get. rewrite Hget.
    apply list_find_Some in Hget as (Hi%list_elem_of_lookup_2 & Hid' & _).
    by rewrite (unique_ids_same_record store m' m Hunique Hi Hm) by congruence.
Qed.

Lemma remove_previous_listed P by_jid key level store :
  P ≠ by_jid →
  listed P key level (remove_previous by_jid store) ↔ listed P key level store.
Proof.
  intros Hother.
  destruct (find_marked_by by_jid store) as [[j m]|] eqn:Hfind.
  - destruct (remove_previous_split _ _ _ _ Hfind) as (l1 & l2 & -> & _ & ->).
    rewrite !listed_app, listed_cons. case_decide as Hempty.
    + rewrite listed_nil.
      assert (marked_by m !! P = None) as Hnone.
      { rewrite <- (lookup_delete_ne (marked_by m) by_jid P), Hempty by done.
        apply lookup_empty. }
      rewrite Hnone. intuition congruence.
    + rewrite listed_cons, listed_nil. simpl. rewrite lookup_delete_ne by done. tauto.
  - unfold remove_previous. by rewrite Hfind.
Qed.

(** X4: a marker of one participant changes nothing for the others.  In a
    store of distinct ids, the level recorded for any other participant,
    on any message key, is after [addChatMarker] what it was before. *)
Theorem addChatMarker_leaves_others env now chat message by_jid type P key :
  unique_ids (markers chat) →
  P ≠ by_jid →
  recorded_level P key (markers (addChatMarker env now chat message by_jid type).1)
    = recorded_level P key (markers chat).
Proof.
  intros Hunique Hother.
  destruct (addChatMarker_store_cases env now chat message by_jid type)
    as [-> | [(_ & i & marked & Hget & ->) | (_ & Hget & time & ->)]]; [done|..];
    apply option_eq; intros level.
  - pose proof Hget as [Hi _]%markers_get_Some.
    rewrite !recorded_level_listed; [|done|by apply unique_ids_save].
    apply list_elem_of_split_length in Hi as (l1 & l2 & -> & ->).
    rewrite insert_app_r_alt, Nat.sub_diag by lia. simpl.
    rewrite !listed_app, !listed_cons. simpl. rewrite lookup_insert_ne by done. tauto.
  - rewrite !recorded_level_listed; [|done|].
    + rewrite listed_app, listed_cons, listed_nil. simpl.
      rewrite lookup_singleton_ne by done. rewrite remove_previous_listed by done.
      intuition congruence.
    + apply unique_ids_append; [by apply unique_ids_remove_previous|].
      simpl. by apply remove_previous_absent.
Qed.

Lemma addChatMarker_leaves_others_witness :
  recorded_level "romeo@montague.lit" "s1"
    (markers (addChatMarker Sample.env Sample.now
                (Sample.room 5 Sample.received_by_romeo) Sample.M1
                "juliet@capulet.lit" (Some "displayed")).1)
    = Some "received".
Proof.
  rewrite (addChatMarker_leaves_others Sample.env Sample.now
             (Sample.room 5 Sample.received_by_romeo) Sample.M1 "juliet@capulet.lit"
             (Some "displayed") "romeo@montague.lit" "s1").
  - reflexivity.
  - unfold unique_ids. simpl. apply NoDup_singleton.
  - discriminate.
Defined.

(** ** What [addChatMarker] returns *)


(** ** Pointers, branch by branch *)

Lemma levels_valid_truthy P store : levels_valid store → levels_truthy P store.
Proof.
  unfold levels_valid, levels_truthy. intros Hvalid.
  eapply Forall_impl; [exact Hvalid|].
  intros m Hm level Hlevel ->. by specialize (Hm P "" Hlevel).
Qed.

(** X6: a marker for a message that has no record yet keeps the
    one-pointer property.  When the levels of the store are valid and
    every participant is in at most one record, the same holds after
    [addChatMarker], and the participant of the call is in exactly one
    record, the new one. *)
Theorem new_record_keeps_single_pointer env now chat message by_jid type :
  over_limit env chat by_jid = false →
  is_marker_type (default "displayed" type) = true →
  markers_get (getMessageIdToMark message) (markers chat) = None →
  levels_valid (markers chat) →
  (∀ P, single_pointer P (markers chat)) →
  let store' := markers (addChatMarker env now chat message by_jid type).1 in
  length (holders by_jid store') = 1%nat ∧ ∀ P, single_pointer P store'.
Proof.
  intros Hfree Hok Hget Hvalid Hone. unfold addChatMarker. rewrite Hfree. cbv zeta.
  assert (∀ P,
    length (holders by_jid
      (markers (applyChatMarker now chat message by_jid (default "displayed" type)).1))
      = 1%nat ∧
    (P ≠ by_jid →
     length (holders P
       (markers (applyChatMarker now chat message by_jid (default "displayed" type)).1))
       = length (holders P (markers chat)))) as Hmove.
  { intros P. apply new_record_moves_pointer; [done|done| |apply Hone].
    by apply levels_valid_truthy. }
  split; [apply (Hmove by_jid)|].
  intros P. unfold single_pointer. destruct (decide (P = by_jid)) as [-> | Hother].
  - destruct (Hmove by_jid) as [-> _]. lia.
  - destruct (Hmove P) as [_ Hsame]. rewrite Hsame by done. apply Hone.
Qed.

Lemma new_record_keeps_single_pointer_witness :
  let store' :=
    markers (addChatMarker Sample.env Sample.now (Sample.room 5 Sample.received_by_romeo)
               Sample.M2 "romeo@montague.lit" (Some "displayed")).1 in
  length (holders "romeo@montague.lit" store') = 1%nat ∧ ∀ P, single_pointer P store'.
Proof.
  apply (new_record_keeps_single_pointer Sample.env Sample.now
           (Sample.room 5 Sample.received_by_romeo) Sample.M2 "romeo@montague.lit"
           (Some "displayed")).
  - reflexivity.
  - reflexivity.
  - reflexivity.
  - apply Forall_singleton. simpl. by apply map_Forall_singleton.
  - intros P. unfold single_pointer, holders, Sample.room, Sample.received_by_romeo.
    simpl. etrans; [apply length_filter|]. simpl. lia.
Defined.

(** X7: a marker for a message that already has a record removes nobody.
    Every other participant is in as many records as before; the
    participant of the call is in one record more when the record of the
    message did not list them yet, and in as many as before when it did. *)
Theorem existing_record_removes_nobody env now chat message by_jid type i marked P :
  over_limit env chat by_jid = false →
  is_marker_type (default "displayed" type) = true →
  markers_get (getMessageIdToMark message) (markers chat) = Some (i, marked) →
  let store' := markers (addChatMarker env now chat message by_jid type).1 in
  length (holders P store') =
    (length (holders P (markers chat)) +
     if decide (P = by_jid ∧ marked_by marked !! by_jid = None) then 1 else 0)%nat.
Proof.
  intros Hfree Hok Hget. unfold addChatMarker. rewrite Hfree. cbv zeta.
  destruct (existing_record_adds_pointer now chat message by_jid
              (default "displayed" type) P i marked Hok Hget) as (Hothers & Hnew & Hold).
  case_decide as Hcase.
  - destruct Hcase as [-> Hnone]. rewrite Hnew by done. lia.
  - destruct (decide (P = by_jid)) as [-> | Hother].
    + rewrite Hold; [lia|]. destruct (marked_by marked !! by_jid); [eauto|].
      destruct Hcase. done.
    + rewrite Hothers by done. lia.
Qed.

Lemma existing_record_removes_nobody_witness :
  length (holders "juliet@capulet.lit"
            (markers (addChatMarker Sample.env Sample.now
                        (Sample.room 5 Sample.received_by_romeo) Sample.M1
                        "juliet@capulet.lit" (Some "displayed")).1)) = 1%nat.
Proof.
  rewrite (existing_record_removes_nobody Sample.env Sample.now
             (Sample.room 5 Sample.received_by_romeo) Sample.M1 "juliet@capulet.lit"
             (Some "displayed") 0%nat
             (mkChatMarker "s1" {["romeo@montague.lit" := "received"]} 1600000000251)
             "juliet@capulet.lit"); reflexivity.
Defined.

(** ** The time of a new record, in general *)



(** ** Sending *)

Lemma sent_by_nothing io : sent_by io io [].
Proof. unfold sent_by. by rewrite app_nil_r. Qed.

Lemma sends_enabled_nothing env io io' : outbox io' = outbox io → sends_enabled env io io'.
Proof.
  intros Hsame. exists []. split_and!; [|done|simpl; lia].
  unfold sent_by. by rewrite app_nil_r.
Qed.

Lemma sends_enabled_one env io io' stanza :
  sent_by io io' [stanza] → enabled env stanza → sends_enabled env io io'.
Proof. intros Hsent Hon. exists [stanza]. split_and!; [done|by apply Forall_singleton|done]. Qed.

(** X9: [sendMarkerForMessage] returns [true] exactly when the level is
    enabled and the message is markable or the send is forced.  It then
    has sent one stanza: to the bare address of the message's sender, of
    the message's type, naming the level and the message's [msgid].
    Otherwise the message and the connection are as before.  Without a
    message it returns [false]. *)
Theorem sendMarkerForMessage_contract env m type force io :
  let level := default "displayed" type in
  let out := sendMarkerForMessage env (Some m) type force io in
  (out.1.1 = true ↔
   includes level (send_chat_markers env) = true ∧ (is_markable m = true ∨ force = true)) ∧
  (out.1.1 = true →
   sent_by io out.2 [marker_stanza env m (msgid m) level] ∧
   error_log out.2 = error_log io) ∧
  (out.1.1 = false → out.1.2 = Some m ∧ out.2 = io) ∧
  sendMarkerForMessage env None type force io = (false, None, io).
Proof.
  unfold sendMarkerForMessage. cbv zeta.
  destruct (includes _ _); simpl.
  - destruct (is_markable m), force; simpl; split_and!; try done; intuition congruence.
  - split_and!; try done. intuition congruence.
Qed.

Lemma sendMarkerForMessage_enabled env msg type force io :
  sends_enabled env io (sendMarkerForMessage env msg type force io).2.
Proof.
  unfold sendMarkerForMessage. cbv zeta.
  destruct msg as [m|]; [|by apply sends_enabled_nothing].
  destruct (includes _ _) eqn:Hon; simpl; [|by apply sends_enabled_nothing].
  destruct (is_markable m || force); [|by apply sends_enabled_nothing].
  by eapply sends_enabled_one.
Qed.

(** The ways [sendMarkerForMUCMessage] ends. *)
Lemma sendMarkerForMUCMessage_cases env chat msg type io :
  let level := default "displayed" type in
  let out := sendMarkerForMUCMessage env chat msg type io in
  (is_marker_type level = false ∧ out = (io, Throw invalid_type_error)) ∨
  (is_marker_type level = true ∧ out = (io, Ok false)) ∨
  (∃ m,
     msg = Some m ∧ is_marker_type level = true ∧
     includes level (send_chat_markers env) = true ∧ is_markable m = true ∧
     already_marked env chat (getMessageIdToMark m) level = false ∧
     ((truthy_str (msg_ids m !! room_key chat) = false ∧
       out = (log_error ("Can't send marker for message without stanza ID: "
                         +:+ room_key chat) io, Ok false)) ∨
      (∃ sid,
         msg_ids m !! room_key chat = Some sid ∧ sid ≠ "" ∧
         out = (api_send (marker_stanza env m sid level) io, Ok true)))).
Proof.
  unfold sendMarkerForMUCMessage, room_key. cbv zeta.
  destruct (is_marker_type _) eqn:Hok; simpl; [|by left]. right.
  destruct msg as [m|]; [|by left].
  destruct (includes _ _) eqn:Hon; simpl; [|by left].
  destruct (is_markable m) eqn:Hmarkable; [|by left].
  destruct (already_marked _ _ _ _) eqn:Hmarked; [by left|].
  right. exists m. split_and!; try done.
  destruct (msg_ids m !! _) as [sid|] eqn:Hsid; simpl; [|by left].
  destruct (String.eqb sid "") eqn:Hempty; simpl; [by left|].
  right. exists sid. apply String.eqb_neq in Hempty. done.
Qed.

(** X10: what [sendMarkerForMUCMessage] returns tells what it did.  On
    [true] it has sent one stanza, naming the level and the non-empty
    stanza id the message has for the room, and logged nothing.  On
    [false] it has sent nothing.  When it throws, it has neither sent nor
    logged. *)
Theorem sendMarkerForMUCMessage_contract env chat msg type io :
  let level := default "displayed" type in
  let out := sendMarkerForMUCMessage env chat msg type io in
  (out.2 = Ok true →
   ∃ m sid,
     msg = Some m ∧ msg_ids m !! room_key chat = Some sid ∧ sid ≠ "" ∧
     is_markable m = true ∧
     sent_by io out.1 [marker_stanza env m sid level] ∧
     error_log out.1 = error_log io) ∧
  (out.2 = Ok false → outbox out.1 = outbox io) ∧
  (∀ e, out.2 = Throw e → e = invalid_type_error ∧ out.1 = io).
Proof.
  cbv zeta.
  destruct (sendMarkerForMUCMessage_cases env chat msg type io)
    as [[_ ->] | [[_ ->] | (m & -> & _ & _ & Hmarkable & _ &
                           [[_ ->] | (sid & Hsid & Hne & ->)])]];
    simpl; split_and!; try done.
  - intros e [= <-]. done.
  - intros _. exists m, sid. done.
Qed.

(** X11: [sendMarkerForMUCMessage] writes to the error log exactly when
    the level is valid and enabled, the message is markable and not yet
    marked by the local user, and the message has no stanza id for the
    room.  It then logs one line naming the missing attribute, sends
    nothing and returns [false]. *)
Theorem sendMarkerForMUCMessage_logs env chat m type io :
  let level := default "displayed" type in
  let out := sendMarkerForMUCMessage env chat (Some m) type io in
  let line := "Can't send marker for message without stanza ID: " +:+ room_key chat in
  (error_log out.1 ≠ error_log io ↔
   is_marker_type level = true ∧ includes level (send_chat_markers env) = true ∧
   is_markable m = true ∧ already_marked env chat (getMessageIdToMark m) level = false ∧
   truthy_str (msg_ids m !! room_key chat) = false) ∧
  (error_log out.1 ≠ error_log io →
   out = (mkIO (outbox io) (error_log io ++ [line]), Ok false)).
Proof.
  cbv zeta.
  destruct (sendMarkerForMUCMessage_cases env chat (Some m) type io)
    as [[Hbad ->] | [[Hok Hquiet] | (m' & [= <-] & Hok & Hon & Hmarkable & Hfresh &
                                    [[Hnone ->] | (sid & Hsid & Hne & ->)])]].
  - simpl. split; [|done]. split; [done|]. intros (? & _). congruence.
  - rewrite Hquiet. simpl. split; [|done]. split; [done|].
    intros (_ & Hon & Hmarkable & Hfresh & Hnone). exfalso.
    revert Hquiet. unfold sendMarkerForMUCMessage, room_key in *. cbv zeta.
    rewrite Hok, Hon, Hmarkable, Hfresh. simpl. rewrite Hnone. simpl.
    intros [= Hlog]. apply (f_equal (λ io, length (error_log io))) in Hlog.
    simpl in Hlog. rewrite length_app in Hlog. simpl in Hlog. lia.
  - simpl. split; [|done]. split; [done|]. intros Hlog. destruct Hlog.
    intros Heq. apply (f_equal length) in Heq. rewrite length_app in Heq.
    simpl in Heq. lia.
  - simpl. split; [|done]. split; [done|]. intros (_ & _ & _ & _ & Hnone).
    rewrite Hsid in Hnone. simpl in Hnone. apply String.eqb_neq in Hne.
    rewrite Hne in Hnone. discriminate.
Qed.

(** X12: in a room, the id [sendMarkerForMUCMessage] sends is the key
    [addChatMarker] records under.  For a groupchat message that comes
    from the room of the chat, a marker that is sent goes to the room and
    names [getMessageIdToMark] of the message. *)
Theorem sendMarkerForMUCMessage_sends_recorded_key env chat m type io :
  msg_type m = "groupchat" →
  getBareJidFromJid (msg_from m) = Some (chat_jid chat) →
  (sendMarkerForMUCMessage env chat (Some m) type io).2 = Ok true →
  ∃ stanza,
    sent_by io (sendMarkerForMUCMessage env chat (Some m) type io).1 [stanza] ∧
    st_to stanza = Some (chat_jid chat) ∧
    st_type stanza = "groupchat" ∧
    st_marker stanza = default "displayed" type ∧
    st_marked_id stanza = getMessageIdToMark m.
Proof.
  intros Hgroup Hroom.
  destruct (sendMarkerForMUCMessage_cases env chat (Some m) type io)
    as [[_ ->] | [[_ ->] | (m' & [= <-] & _ & _ & _ & _ &
                           [[_ ->] | (sid & Hsid & Hne & ->)])]]; simpl; try done.
  intros _. eexists. split_and!; [done|done| | done|].
  - simpl. by rewrite Hgroup.
  - simpl. unfold getMessageIdToMark. rewrite Hgroup, Hroom. simpl.
    unfold room_key, stanza_id_key in *. simpl. rewrite Hsid. simpl.
    apply String.eqb_neq in Hne. by rewrite Hne.
Qed.

Lemma sendMarkerForMUCMessage_sends_recorded_key_witness :
  ∃ stanza,
    sent_by Sample.quiet
      (sendMarkerForMUCMessage Sample.env (Sample.room 5 []) (Some Sample.M1)
                               (Some "received") Sample.quiet).1 [stanza] ∧
    st_to stanza = Some "lounge@montague.lit" ∧
    st_type stanza = "groupchat" ∧
    st_marker stanza = "received" ∧
    st_marked_id stanza = getMessageIdToMark Sample.M1.
Proof.
  apply (sendMarkerForMUCMessage_sends_recorded_key Sample.env (Sample.room 5 [])
           Sample.M1 (Some "received") Sample.quiet); reflexivity.
Defined.

Lemma sendMarkerForMUCMessage_enabled env chat msg type io :
  sends_enabled env io (sendMarkerForMUCMessage env chat msg type io).1.
Proof.
  destruct (sendMarkerForMUCMessage_cases env chat msg type io)
    as [[_ ->] | [[_ ->] | (m & -> & _ & Hon & _ & _ &
                           [[_ ->] | (sid & _ & _ & ->)])]]; simpl.
  - by apply sends_enabled_nothing.
  - by apply sends_enabled_nothing.
  - by apply sends_enabled_nothing.
  - by eapply sends_enabled_one.
Qed.

(** X13: whatever function of the plugin is called, it sends at most one
    stanza, and a stanza it sends names a level of the setting
    [send_chat_markers]; a forced send is bound by the setting too. *)
Theorem every_stanza_enabled env now chat msg message type force io :
  sends_enabled env io (sendMarkerForMessage env msg type force io).2 ∧
  sends_enabled env io (sendMarkerForMUCMessage env chat msg type io).1 ∧
  sends_enabled env io (sendMarkerForLastMessage env now chat type force io).1.2 ∧
  sends_enabled env io (handleUnreadMessage env now chat msg io).1.2 ∧
  sends_enabled env io (onMessageUpdated env now chat message io).1.2 ∧
  sends_enabled env io (onMessageSent env now chat message io).1.2 ∧
  sends_enabled env io (onUnreadsCleared env now chat io).1.2.
Proof.
  split_and!.
  - apply sendMarkerForMessage_enabled.
  - apply sendMarkerForMUCMessage_enabled.
  - unfold sendMarkerForLastMessage. cbv zeta.
    destruct (list_find _ _) as [[i m]|]; [|by apply sends_enabled_nothing].
    pose proof (sendMarkerForMessage_enabled env (Some m) type force io) as Hsent.
    destruct (sendMarkerForMessage env (Some m) type force io) as [[sent m'] io'].
    destruct sent; [|done]. by destruct (addChatMarker _ _ _ _ _ _).
  - unfold handleUnreadMessage.
    destruct msg as [m|]; [|by apply sends_enabled_nothing].
    destruct (_ || _); [by apply sends_enabled_nothing|].
    pose proof (sendMarkerForMessage_enabled env (Some m) None false io) as Hsent.
    destruct (sendMarkerForMessage env (Some m) None false io) as [[sent m'] io'].
    destruct sent; [|done]. by destruct (addChatMarker _ _ _ _ _ _).
  - unfold onMessageUpdated.
    destruct (_ || _); [by apply sends_enabled_nothing|].
    pose proof (sendMarkerForMUCMessage_enabled env chat (Some message) None io) as Hsent.
    destruct (sendMarkerForMUCMessage env chat (Some message) None io)
      as [io' [[|]|e]]; [|done..].
    by destruct (addChatMarker _ _ _ _ _ _).
  - unfold onMessageSent.
    destruct (_ || _); [by apply sends_enabled_nothing|].
    pose proof (sendMarkerForMessage_enabled env (Some message) (Some "displayed") true io)
      as Hsent.
    destruct (sendMarkerForMessage env (Some message) (Some "displayed") true io)
      as [[sent m'] io'].
    destruct sent; [|done]. by destruct (addChatMarker _ _ _ _ _ _).
  - unfold onUnreadsCleared.
    destruct (String.eqb _ _).
    + destruct (_ || _); [|by apply sends_enabled_nothing].
      pose proof (sendMarkerForMUCMessage_enabled env chat (last (messages chat)) None io)
        as Hsent.
      destruct (sendMarkerForMUCMessage env chat (last (messages chat)) None io)
        as [io' [[|]|e]]; destruct (last (messages chat)); try done.
      by destruct (addChatMarker _ _ _ _ _ _).
    + destruct (0 <? _); [|by apply sends_enabled_nothing].
      pose proof (sendMarkerForMessage_enabled env (last (messages chat)) None false io)
        as Hsent.
      destruct (sendMarkerForMessage env (last (messages chat)) None false io)
        as [[sent m'] io'].
      destruct sent, m'; try done. by destruct (addChatMarker _ _ _ _ _ _).
Qed.

(** ** Repeated events in a room *)

Lemma own_mark_recorded env chat mid :
  own_mark env chat mid = recorded_level (bare_jid env) mid (markers chat).
Proof. reflexivity. Qed.

(** After [addChatMarker] for the local user, [sendMarkerForMUCMessage]
    for the same message, without a level, sends nothing. *)
Lemma marked_room_message_not_sent env now chat m io :
  let chat' := (addChatMarker env now chat m (bare_jid env) None).1 in
  sendMarkerForMUCMessage env chat' (Some m) None io = (io, Ok false).
Proof.
  cbv zeta.
  destruct (addChatMarker_local_displayed env now chat m) as [_ Hlevel].
  apply (sendMarkerForMUCMessage_marked env _ m "displayed" "displayed" io);
    [by rewrite own_mark_recorded | done | done].
Qed.

Lemma addChatMarker_keeps_chat env now chat message by_jid type :
  let chat' := (addChatMarker env now chat message by_jid type).1 in
  chat_type chat' = chat_type chat ∧ is_hidden chat' = is_hidden chat ∧
  messages chat' = messages chat ∧ num_unread chat' = num_unread chat ∧
  num_unread_general chat' = num_unread_general chat ∧
  has_activity chat' = has_activity chat.
Proof.
  cbv zeta. rewrite (addChatMarker_only_markers env now chat message by_jid type). done.
Qed.

(** X14: in a room a marker is not sent twice.  When [onMessageUpdated]
    has sent a marker for a message, a second [onMessageUpdated] for that
    message, at any later time, sends nothing, logs nothing and leaves
    the chat as the first call left it. *)
Theorem onMessageUpdated_repeat_suppressed env now now' chat message io :
  let first := onMessageUpdated env now chat message io in
  outbox first.1.2 ≠ outbox io →
  onMessageUpdated env now' first.1.1 message first.1.2 = (first.1.1, first.1.2, Ok tt).
Proof.
  unfold onMessageUpdated. cbv zeta.
  destruct (is_hidden chat || negb (String.eqb (chat_type chat) CHATROOMS_TYPE))
    eqn:Hguard; [done|].
  destruct (sendMarkerForMUCMessage_cases env chat (Some message) None io)
    as [[_ ->] | [[_ ->] | (m & [= <-] & _ & _ & _ & _ &
                           [[_ ->] | (sid & _ & _ & ->)])]]; simpl; [done..|].
  intros _.
  set (io' := api_send _ io).
  pose proof (marked_room_message_not_sent env now chat message io') as Hquiet.
  pose proof (addChatMarker_keeps_chat env now chat message (bare_jid env) None)
    as (Htype & Hhidden & _).
  destruct (addChatMarker env now chat message (bare_jid env) None) as [chat' r].
  simpl in *. rewrite Htype, Hhidden, Hguard, Hquiet. done.
Qed.

Lemma onMessageUpdated_repeat_suppressed_witness :
  let first :=
    onMessageUpdated Sample.env Sample.now (Sample.room 5 []) Sample.M1 Sample.quiet in
  onMessageUpdated Sample.env (Sample.now + 1) first.1.1 Sample.M1 first.1.2
    = (first.1.1, first.1.2, Ok tt).
Proof.
  apply (onMessageUpdated_repeat_suppressed Sample.env Sample.now (Sample.now + 1)
           (Sample.room 5 []) Sample.M1 Sample.quiet).
  vm_compute. discriminate.
Defined.

(** X15: the same holds for [onUnreadsCleared] in a room, whose unread
    counters the plugin does not reset.  When a call has sent a marker
    for the last message, a second call on the chat as it then is sends
    nothing, logs nothing and changes nothing. *)
Theorem onUnreadsCleared_room_repeat_suppressed env now now' chat io :
  chat_type chat = CHATROOMS_TYPE →
  let first := onUnreadsCleared env now chat io in
  outbox first.1.2 ≠ outbox io →
  onUnreadsCleared env now' first.1.1 first.1.2 = (first.1.1, first.1.2, Ok tt).
Proof.
  intros Hroom%String.eqb_eq. unfold onUnreadsCleared. cbv zeta. rewrite Hroom.
  destruct ((0 <? num_unread_general chat) || (0 <? num_unread chat) || has_activity chat)
    eqn:Hpending; [|done].
  destruct (sendMarkerForMUCMessage_cases env chat (last (messages chat)) None io)
    as [[_ ->] | [[_ ->] | (m & Hlast & _ & _ & _ & _ &
                           [[_ ->] | (sid & _ & _ & ->)])]]; simpl;
    [by destruct (last (messages chat))..| |].
  - rewrite Hlast. intros Hsent. by destruct Hsent.
  - rewrite Hlast. intros _.
    set (io' := api_send _ io).
    pose proof (marked_room_message_not_sent env now chat m io') as Hquiet.
    pose proof (addChatMarker_keeps_chat env now chat m (bare_jid env) None)
      as (Htype & _ & Hmessages & Hunread & Hgeneral & Hactivity).
    destruct (addChatMarker env now chat m (bare_jid env) None) as [chat' r].
    simpl in *.
    rewrite Htype, Hroom, Hgeneral, Hunread, Hactivity, Hpending, Hmessages, Hlast, Hquiet.
    done.
Qed.

Lemma onUnreadsCleared_room_repeat_suppressed_witness :
  let busy :=
    mkChat CHATROOMS_TYPE "lounge@montague.lit" 5 false 2 0 false
           [Sample.M1; Sample.M2] [] in
  let first := onUnreadsCleared Sample.env Sample.now busy Sample.quiet in
  onUnreadsCleared Sample.env (Sample.now + 1) first.1.1 first.1.2
    = (first.1.1, first.1.2, Ok tt).
Proof.
  apply (onUnreadsCleared_room_repeat_suppressed Sample.env Sample.now (Sample.now + 1)
           (mkChat CHATROOMS_TYPE "lounge@montague.lit" 5 false 2 0 false
                   [Sample.M1; Sample.M2] []) Sample.quiet).
  - reflexivity.
  - vm_compute. discriminate.
Defined.

(** ** A message of the local user is sent *)

(** X16: [onMessageSent] does nothing in a room or a hidden chat.  In a
    visible direct chat with [displayed] enabled it sends a [displayed]
    marker for the message whether markable or not, addressed to the bare
    address of the message's own sender, and records the local user at
    [displayed] for the message.  With [displayed] disabled it sends and
    records nothing. *)
Theorem onMessageSent_forces_displayed env now chatbox message io :
  let out := onMessageSent env now chatbox message io in
  let visible_direct :=
    is_hidden chatbox = false ∧ chat_type chatbox ≠ CHATROOMS_TYPE in
  (¬ visible_direct → out = (chatbox, Some message, io, Ok tt)) ∧
  (visible_direct → includes "displayed" (send_chat_markers env) = false →
   out = (chatbox, Some message, io, Ok tt)) ∧
  (visible_direct → includes "displayed" (send_chat_markers env) = true →
   sent_by io out.1.2 [marker_stanza env message (msgid message) "displayed"] ∧
   out.2 = Ok tt ∧
   recorded_level (bare_jid env) (getMessageIdToMark message) (markers out.1.1.1)
     = Some "displayed").
Proof.
  unfold onMessageSent. cbv zeta.
  destruct (is_hidden chatbox) eqn:Hhidden; simpl.
  { split_and!; [done|intros [? _]; done..]. }
  destruct (String.eqb (chat_type chatbox) CHATROOMS_TYPE) eqn:Hroom.
  { apply String.eqb_eq in Hroom. split_and!; [done|intros [_ ?]; done..]. }
  apply String.eqb_neq in Hroom.
  unfold sendMarkerForMessage. simpl.
  destruct (includes "displayed" (send_chat_markers env)); simpl.
  - rewrite orb_true_r. simpl. split_and!; [intros []; done|done|]. intros _ _.
    set (m' := save_list _ _ message).
    pose proof (addChatMarker_local_displayed env now chatbox m') as [Hret Hlevel].
    destruct (addChatMarker env now chatbox m' (bare_jid env) None) as [chatbox' r].
    simpl in *. split_and!; [reflexivity|done|done].
  - split_and!; [done..|]. done.
Qed.

Lemma onMessageSent_forces_displayed_witness :
  let out :=
    onMessageSent Sample.env Sample.now (Sample.direct [Sample.D2]) Sample.D2
                  Sample.quiet in
  sent_by Sample.quiet out.1.2 [marker_stanza Sample.env Sample.D2 "msgidX" "displayed"] ∧
  out.2 = Ok tt ∧
  recorded_level "romeo@montague.lit" "msgidX" (markers out.1.1.1) = Some "displayed" ∧
  st_to (marker_stanza Sample.env Sample.D2 "msgidX" "displayed")
    = Some "romeo@montague.lit".
Proof.
  destruct (onMessageSent_forces_displayed Sample.env Sample.now
              (Sample.direct [Sample.D2]) Sample.D2 Sample.quiet) as (_ & _ & forced).
  destruct forced as (sent & ret & level).
  - split; [reflexivity | discriminate].
  - reflexivity.
  - split_and!; [exact sent | exact ret | exact level | reflexivity].
Defined.

(** ** Incoming stanzas that change nothing *)

Lemma find_msgid_None id msgs :
  find_msgid id msgs = None ↔ Forall (λ m, msgid m ≠ id) msgs.
Proof. apply list_find_None. Qed.

(** X17: [handleChatMarker] leaves the chat alone unless it finds the
    marked message.  A stanza for another recipient, or one without a
    [marker_id], hands the [handled] flag back as it came.  A stanza for
    the local user whose [marker_id] is the [msgid] of no message of the
    chat is reported handled, and nothing is recorded. *)
Theorem handleChatMarker_without_target env now attrs model handled :
  let out := handleChatMarker env now (mkData attrs model) handled in
  (getBareJidFromJid (attrs_to attrs) ≠ Some (bare_jid env) ∨
   truthy_str (attrs_marker_id attrs) = false →
   out = (model, Ok handled)) ∧
  (getBareJidFromJid (attrs_to attrs) = Some (bare_jid env) →
   ∀ id, attrs_marker_id attrs = Some id → id ≠ "" →
         Forall (λ m, msgid m ≠ id) (messages model) →
         out = (model, Ok true)).
Proof.
  unfold handleChatMarker. cbv zeta. simpl. split.
  - intros [Hother | Hnone].
    + by rewrite bool_decide_eq_false_2.
    + destruct (bool_decide _); simpl; [|done]. by rewrite Hnone.
  - intros Hto id Hid Hne Hmissing.
    rewrite bool_decide_eq_true_2 by done. simpl. rewrite Hid. simpl.
    apply String.eqb_neq in Hne. rewrite Hne. simpl.
    apply find_msgid_None in Hmissing. by rewrite Hmissing.
Qed.

Lemma handleChatMarker_without_target_witness :
  handleChatMarker Sample.env Sample.now
    (mkData (mkAttrs "juliet@capulet.lit/balcony" "romeo@montague.lit/orchard"
                     (Some "msgidX") (Some "received"))
            (Sample.direct [Sample.D2])) false
    = (Sample.direct [Sample.D2], Ok false) ∧
  handleChatMarker Sample.env Sample.now
    (mkData Sample.marker_from_juliet (Sample.direct [Sample.D1])) false
    = (Sample.direct [Sample.D1], Ok true).
Proof.
  destruct (handleChatMarker_without_target Sample.env Sample.now
              (mkAttrs "juliet@capulet.lit/balcony" "romeo@montague.lit/orchard"
                       (Some "msgidX") (Some "received"))
              (Sample.direct [Sample.D2]) false) as [other _].
  destruct (handleChatMarker_without_target Sample.env Sample.now
              Sample.marker_from_juliet (Sample.direct [Sample.D1]) false)
    as [_ unknown].
  split.
  - apply other. left. discriminate.
  - apply (unknown eq_refl "msgidX"); [reflexivity | discriminate |].
    apply Forall_singleton. discriminate.
Defined.

(** X18: a stanza for the local user that has a [marker_id] is reported
    handled in every case but one: the message it names is found and
    that message's own [marker] attribute is no key of [MARKER_TYPES].
    Then the TypeError of [addChatMarker] comes out of the handler, and
    the chat is as before.  The messages of the chat are never changed. *)
Theorem handleChatMarker_handled_or_throws env now attrs model handled :
  getBareJidFromJid (attrs_to attrs) = Some (bare_jid env) →
  truthy_str (attrs_marker_id attrs) = true →
  let out := handleChatMarker env now (mkData attrs model) handled in
  messages out.1 = messages model ∧
  (out.2 = Ok true ∨
   (out = (model, Throw invalid_type_error) ∧
    ∃ i message level,
      find_msgid (default "" (attrs_marker_id attrs)) (messages model) = Some (i, message) ∧
      msg_marker message = Some level ∧ is_marker_type level = false)).
Proof.
  intros Hto Hid. unfold handleChatMarker. cbv zeta. simpl.
  rewrite bool_decide_eq_true_2 by done. simpl. rewrite Hid.
  destruct (find_msgid _ _) as [[i message]|] eqn:Hfind; [|split; [done|by left]].
  pose proof (addChatMarker_keeps_chat env now model message (msg_from message)
                (msg_marker message)) as (_ & _ & Hmessages & _).
  unfold addChatMarker in *. cbv zeta in *.
  destruct (over_limit env model (msg_from message)); [split; [done|by left]|].
  destruct (is_marker_type (default "displayed" (msg_marker message))) eqn:Hok.
  - revert Hmessages. unfold applyChatMarker. rewrite Hok. simpl.
    destruct (markers_get _ _) as [[j marked]|]; simpl; [split; [done|by left]|].
    destruct (markers_add _ _). simpl. split; [done|by left].
  - rewrite applyChatMarker_invalid by done. simpl. split; [done|]. right.
    split; [done|]. exists i, message.
    destruct (msg_marker message) as [level|]; [|discriminate]. eauto.
Qed.

Lemma handleChatMarker_handled_or_throws_witness :
  let out :=
    handleChatMarker Sample.env Sample.now
      (mkData Sample.marker_from_juliet (Sample.direct [Sample.D2])) false in
  messages out.1 = [Sample.D2] ∧
  (out.2 = Ok true ∨
   (out = (Sample.direct [Sample.D2], Throw invalid_type_error) ∧
    ∃ i message level,
      find_msgid "msgidX" [Sample.D2] = Some (i, message) ∧
      msg_marker message = Some level ∧ is_marker_type level = false)).
Proof.
  apply (handleChatMarker_handled_or_throws Sample.env Sample.now
           Sample.marker_from_juliet (Sample.direct [Sample.D2]) false); reflexivity.
Defined.

(** ** The last eligible message *)

Lemma list_find_reverse_Some {A} (P : A → Prop) `{!∀ x, Decision (P x)} (l : list A) i x :
  list_find P (reverse l) = Some (i, x) →
  ∃ l1 l2,
    l = l1 ++ x :: l2 ∧ P x ∧ Forall (λ y, ¬ P y) l2 ∧
    (length (reverse l) - 1 - i)%nat = length l1.
Proof.
  intros (Hi & HP & Hleast)%list_find_Some.
  apply reverse_lookup_Some in Hi as [Hi Hlt].
  apply list_elem_of_split_length in Hi as (l1 & l2 & -> & Hlen).
  rewrite length_app in Hlen, Hlt. simpl in Hlen, Hlt.
  exists l1, l2. split_and!; [done|done| |].
  - apply Forall_lookup. intros k y Hk.
    pose proof (lookup_lt_Some _ _ _ Hk) as Hklt.
    apply (Hleast (length l2 - S k)%nat); [|lia].
    apply reverse_lookup_Some. rewrite length_app. simpl. split; [|lia].
    replace (length l1 + S (length l2) - S (length l2 - S k))%nat
      with (length l1 + S k)%nat by lia.
    rewrite lookup_app_r by lia.
    replace (length l1 + S k - length l1)%nat with (S k) by lia. done.
  - rewrite length_reverse, length_app. simpl. lia.
Qed.

(** X19: [sendMarkerForLastMessage] marks the most recent eligible
    message.  When no message of the chat is markable and the send is not
    forced, or the chat has no message, nothing happens.  When a marker
    is sent, it names the [msgid] of a message after which no message is
    eligible, and what the send saves on that message is the only change
    to the messages of the chat. *)
Theorem sendMarkerForLastMessage_picks_latest env now chat type force io :
  let out := sendMarkerForLastMessage env now chat type force io in
  (Forall (λ m, ¬ eligible force m) (messages chat) → out = (chat, io, Ok tt)) ∧
  (outbox out.1.2 ≠ outbox io →
   ∃ l1 m l2 value,
     messages chat = l1 ++ m :: l2 ∧
     eligible force m ∧
     Forall (λ m', ¬ eligible force m') l2 ∧
     sent_by io out.1.2 [marker_stanza env m (msgid m) (default "displayed" type)] ∧
     messages out.1.1 = l1 ++ save_list "field_name" value m :: l2).
Proof.
  unfold sendMarkerForLastMessage. cbv zeta.
  destruct (list_find _ (reverse (messages chat))) as [[i m]|] eqn:Hfind.
  - split.
    { intros Hnone. apply Forall_reverse in Hnone.
      apply (list_find_None (λ m, force || is_markable m = true)) in Hnone. congruence. }
    apply list_find_reverse_Some in Hfind as (l1 & l2 & Hmessages & Hm & Hl2 & Hindex).
    destruct (sendMarkerForMessage_cases env m type force io) as [-> | [value ->]];
      simpl; [done|].
    intros _. rewrite Hindex. set (m' := save_list "field_name" value m).
    set (chat' := set_messages _ chat).
    pose proof (addChatMarker_keeps_chat env now chat' m' (bare_jid env) None)
      as (_ & _ & Hsame & _).
    destruct (addChatMarker env now chat' m' (bare_jid env) None) as [chat'' r].
    simpl in *. exists l1, m, l2, value. split_and!; [done..|reflexivity|].
    rewrite Hsame, Hmessages.
    by rewrite insert_app_r_alt, Nat.sub_diag by lia.
  - split; [done|]. intros Hsent. by destruct Hsent.
Qed.

Lemma sendMarkerForLastMessage_picks_latest_witness :
  let out :=
    sendMarkerForLastMessage Sample.env Sample.now (Sample.room 5 []) None false
                             Sample.quiet in
  ∃ l1 m l2 value,
    [Sample.M1; Sample.M2; Sample.M3] = l1 ++ m :: l2 ∧
    eligible false m ∧
    Forall (λ m', ¬ eligible false m') l2 ∧
    sent_by Sample.quiet out.1.2 [marker_stanza Sample.env m (msgid m) "displayed"] ∧
    messages out.1.1 = l1 ++ save_list "field_name" value m :: l2.
Proof.
  destruct (sendMarkerForLastMessage_picks_latest Sample.env Sample.now (Sample.room 5 [])
              None false Sample.quiet) as [_ sent].
  apply sent. vm_compute. discriminate.
Defined.

(** ** A new unread message *)

(** X20: [handleUnreadMessage] sends exactly when there is a message with
    a non-empty body that is new and markable, the chat is not hidden and
    [displayed] is enabled.  What it sends is one [displayed] marker
    naming the message's [msgid]; otherwise chat, message and connection
    are as before. *)
Theorem handleUnreadMessage_sends_iff env now chat message io :
  let out := handleUnreadMessage env now chat message io in
  let wanted m :=
    truthy_str (msg_body m) = true ∧ is_new m = true ∧ is_hidden chat = false ∧
    is_markable m = true ∧ includes "displayed" (send_chat_markers env) = true in
  (∀ m, message = Some m → wanted m →
        sent_by io out.1.2 [marker_stanza env m (msgid m) "displayed"] ∧ out.2 = Ok tt) ∧
  ((∀ m, message = Some m → ¬ wanted m) → out = (chat, message, io, Ok tt)).
Proof.
  unfold handleUnreadMessage. cbv zeta.
  destruct message as [m|]; [|split; [intros ? [=]|done]].
  split.
  - intros ? [= <-] (Hbody & Hnew & Hvisible & Hmarkable & Hon).
    rewrite Hbody, Hnew, Hvisible. simpl.
    unfold sendMarkerForMessage. simpl. rewrite Hon, Hmarkable. simpl.
    set (m' := save_list _ _ m).
    pose proof (addChatMarker_local_displayed env now chat m') as [Hret _].
    destruct (addChatMarker env now chat m' (bare_jid env) None) as [chat' r].
    simpl in *. split; [reflexivity|done].
  - intros Hunwanted. specialize (Hunwanted m eq_refl).
    destruct (truthy_str (msg_body m)) eqn:Hbody; simpl; [|done].
    destruct (is_new m) eqn:Hnew; simpl; [|done].
    destruct (is_hidden chat) eqn:Hhidden; simpl; [done|].
    unfold sendMarkerForMessage. simpl.
    destruct (includes "displayed" (send_chat_markers env)) eqn:Hon; simpl; [|done].
    destruct (is_markable m) eqn:Hmarkable; simpl; [|done].
    by destruct Hunwanted.
Qed.

Lemma handleUnreadMessage_sends_iff_witness :
  let out :=
    handleUnreadMessage Sample.env Sample.now (Sample.direct [Sample.D1])
                        (Some Sample.D1) Sample.quiet in
  sent_by Sample.quiet out.1.2 [marker_stanza Sample.env Sample.D1 "id4" "displayed"] ∧
  out.2 = Ok tt.
Proof.
  destruct (handleUnreadMessage_sends_iff Sample.env Sample.now (Sample.direct [Sample.D1])
              (Some Sample.D1) Sample.quiet) as [sends _].
  apply (sends Sample.D1 eq_refl). split_and!; reflexivity.
Defined.

(** ** Unread counters cleared *)

(** X21: [onUnreadsCleared] does nothing when nothing is pending: in a
    room with no unread message of either counter and no activity, in
    any other chat with no unread message, and in every chat that has no
    message at all. *)
Theorem onUnreadsCleared_idle env now chat io :
  (chat_type chat = CHATROOMS_TYPE ∧ num_unread_general chat ≤ 0 ∧ num_unread chat ≤ 0 ∧
   has_activity chat = false) ∨
  (chat_type chat ≠ CHATROOMS_TYPE ∧ num_unread chat ≤ 0) ∨
  messages chat = [] →
  onUnreadsCleared env now chat io = (chat, io, Ok tt).
Proof.
  unfold onUnreadsCleared.
  intros [(Hroom & Hgeneral & Hunread & Hquiet) | [(Hdirect & Hunread) | Hempty]].
  - apply String.eqb_eq in Hroom. rewrite Hroom, Hquiet.
    by rewrite (proj2 (Z.ltb_ge 0 _) Hgeneral), (proj2 (Z.ltb_ge 0 _) Hunread).
  - apply String.eqb_neq in Hdirect. rewrite Hdirect.
    by rewrite (proj2 (Z.ltb_ge 0 _) Hunread).
  - rewrite Hempty. simpl.
    destruct (String.eqb _ _).
    + by destruct (_ || _).
    + destruct (0 <? _); [|done]. by destruct chat.
Qed.

Lemma onUnreadsCleared_idle_witness :
  onUnreadsCleared Sample.env Sample.now (Sample.room 5 []) Sample.quiet
    = (Sample.room 5 [], Sample.quiet, Ok tt) ∧
  onUnreadsCleared Sample.env Sample.now (Sample.direct []) Sample.quiet
    = (Sample.direct [], Sample.quiet, Ok tt).
Proof.
  split.
  - apply (onUnreadsCleared_idle Sample.env Sample.now (Sample.room 5 []) Sample.quiet).
    left. split_and!; [reflexivity|simpl; lia|simpl; lia|reflexivity].
  - apply (onUnreadsCleared_idle Sample.env Sample.now (Sample.direct []) Sample.quiet).
    right; right. reflexivity.
Defined.

(** One call of [onUnreadsCleared] in a direct chat whose last message is
    markable. *)
Lemma onUnreadsCleared_direct_sends env now chat io l m :
  chat_type chat ≠ CHATROOMS_TYPE →
  0 < num_unread chat →
  messages chat = l ++ [m] →
  is_markable m = true →
  includes "displayed" (send_chat_markers env) = true →
  let out := onUnreadsCleared env now chat io in
  let m' :=
    save_list "field_name"
      (default [] (msg_lists m !! "marked_displayed") ++ [bare_jid env]) m in
  out.1.2 = api_send (marker_stanza env m (msgid m) "displayed") io ∧
  out.2 = Ok tt ∧
  messages out.1.1 = l ++ [m'] ∧
  chat_type out.1.1 = chat_type chat ∧
  num_unread out.1.1 = num_unread chat.
Proof.
  intros Hdirect%String.eqb_neq Hunread%Z.ltb_lt Hmessages Hmarkable Hon.
  unfold onUnreadsCleared. cbv zeta. rewrite Hdirect, Hunread, Hmessages, last_snoc.
  unfold sendMarkerForMessage. simpl. rewrite Hon, Hmarkable. simpl.
  set (m' := save_list _ _ m). set (chat' := set_messages _ chat).
  pose proof (addChatMarker_local_displayed env now chat' m') as [Hret _].
  pose proof (addChatMarker_keeps_chat env now chat' m' (bare_jid env) None)
    as (Htype & _ & Hsame & Hnum & _).
  destruct (addChatMarker env now chat' m' (bare_jid env) None) as [chat'' r].
  simpl in *. split_and!; [reflexivity|done| |done|done].
  rewrite Hsame, Hmessages, length_app. simpl.
  replace (length l + 1 - 1)%nat with (length l + 0)%nat by lia.
  by rewrite insert_app_r.
Qed.

(** X22: a direct chat has no guard against a repeated marker.  With an
    unread message pending, the last message markable and [displayed]
    enabled, two calls of [onUnreadsCleared] in a row send the same
    stanza twice; the second call leaves the messages as the first left
    them. *)
Theorem onUnreadsCleared_direct_resends env now now' chat io l m :
  chat_type chat ≠ CHATROOMS_TYPE →
  0 < num_unread chat →
  messages chat = l ++ [m] →
  is_markable m = true →
  includes "displayed" (send_chat_markers env) = true →
  let first := onUnreadsCleared env now chat io in
  let second := onUnreadsCleared env now' first.1.1 first.1.2 in
  let stanza := marker_stanza env m (msgid m) "displayed" in
  sent_by io second.1.2 [stanza; stanza] ∧
  second.2 = Ok tt ∧
  messages second.1.1 = messages first.1.1.
Proof.
  intros Hdirect Hunread Hmessages Hmarkable Hon. cbv zeta.
  destruct (onUnreadsCleared_direct_sends env now chat io l m)
    as (Hio & _ & Hmessages' & Htype & Hnum); [done..|].
  set (m' := save_list _ _ m) in Hmessages'.
  destruct (onUnreadsCleared_direct_sends env now'
              (onUnreadsCleared env now chat io).1.1
              (onUnreadsCleared env now chat io).1.2 l m')
    as (Hio' & Hret' & Hmessages'' & _); [congruence|lia|done..|].
  split_and!; [|done|].
  - rewrite Hio', Hio. unfold sent_by. simpl. by rewrite <- app_assoc.
  - rewrite Hmessages'', Hmessages'. do 2 f_equal.
    unfold save_list, m'. simpl. rewrite lookup_insert_ne by done.
    by rewrite insert_insert_eq.
Qed.

Lemma onUnreadsCleared_direct_resends_witness :
  let first :=
    onUnreadsCleared Sample.env Sample.now (Sample.direct [Sample.D1]) Sample.quiet in
  let second := onUnreadsCleared Sample.env (Sample.now + 1) first.1.1 first.1.2 in
  let stanza := marker_stanza Sample.env Sample.D1 "id4" "displayed" in
  sent_by Sample.quiet second.1.2 [stanza; stanza] ∧
  second.2 = Ok tt ∧
  messages second.1.1 = messages first.1.1.
Proof.
  apply (onUnreadsCleared_direct_resends Sample.env Sample.now (Sample.now + 1)
           (Sample.direct [Sample.D1]) Sample.quiet [] Sample.D1);
    [discriminate | reflexivity | reflexivity | reflexivity | reflexivity].
Defined.
